(** * datacollector: the reference resolution and conversion pipeline

    A shallow embedding of [src/data_collector.py] (class [DataCollector]):
    the type classifier ([detect_file_type], [detect_file_extension],
    [check_content_type]), the converter adapter ([save_temp_file],
    [convert_content]), the record pipeline ([process_content]) and the
    sync gateway ([sync_records], [update_records]).

    Modelling conventions.
    - Python [str] is [string] (one [ascii] per character: the model covers
      the 8-bit range, which is what HTTP header values and the registry
      literals use); Python [bytes] is [list byte].  A value that may be
      either at run time is a [pycontent].
    - The table [record] is a [list] of rows in insertion (rowid) order;
      [UPDATE ... WHERE id = ?] rewrites every row carrying that id.
    - The file system is a [gmap] from path to file; network, the clock,
      [hashlib], [strptime], BeautifulSoup and MarkItDown are collaborators
      whose answers are the fields of a [World].
    - Exceptions are values of [exn]; [str(e)] is [str_exn].
    - Calls on collaborators are appended to a [trace], so that "is never
      invoked" can be stated. *)

From stdpp Require Import base strings list gmap.
From Stdlib Require Import ZArith Ascii String.
From Stdlib.Strings Require Import Byte.

Open Scope string_scope.
Open Scope Z_scope.

(** ** Python strings and bytes *)

(** [str.lower] on the 8-bit range. *)
Definition lower_ascii (c : ascii) : ascii :=
  let n := N_of_ascii c in
  if ((65 <=? n) && (n <=? 90))%N then ascii_of_N (n + 32) else c.

Fixpoint lower (s : string) : string :=
  match s with
  | EmptyString => EmptyString
  | String c s' => String (lower_ascii c) (lower s')
  end.

(** [sub in s] for two [str]. *)
Fixpoint contains (sub s : string) : bool :=
  String.prefix sub s ||
  match s with
  | EmptyString => false
  | String _ s' => contains sub s'
  end.

(** [s.startswith(p)] for two [str]. *)
Definition str_startswith (s p : string) : bool := String.prefix p s.

(** [b.startswith(magic)] for two [bytes]. *)
Fixpoint bytes_startswith (b magic : list byte) {struct magic} : bool :=
  match magic, b with
  | [], _ => true
  | m :: magic', x :: b' => Byte.eqb m x && bytes_startswith b' magic'
  | _ :: _, [] => false
  end.

(** Python truthiness of a [str] and of an optional [str] ([None] or ['']
    are false). *)
Definition truthy (s : string) : bool :=
  match s with EmptyString => false | _ => true end.

Definition truthy_opt (o : option string) : bool :=
  match o with Some s => truthy s | None => false end.

(** A value that is [bytes] on some paths and [str] on others. *)
Inductive pycontent :=
| Bytes (b : list byte)
| Str (s : string).

(** ** Exceptions *)

Inductive exn :=
| ValueError (msg : string)
| TypeError (msg : string)
| NameError (msg : string)
| UnboundLocalError (msg : string)
| KeyError (msg : string)
| IndexError (msg : string)
| OtherError (msg : string).  (* raised inside a collaborator *)

Definition str_exn (e : exn) : string :=
  match e with
  | ValueError m | TypeError m | NameError m | UnboundLocalError m
  | KeyError m | IndexError m | OtherError m => m
  end.

Inductive result (A : Type) :=
| Ok (a : A)
| Raise (e : exn).
Arguments Ok {A} a.
Arguments Raise {A} e.

Definition rbind {A B} (r : result A) (k : A -> result B) : result B :=
  match r with
  | Ok a => k a
  | Raise e => Raise e
  end.

Notation "'do' x <- c ; k" := (rbind c (fun x => k))
  (at level 10, x name, c at level 100, k at level 200).

(** ** The registry [FILE_TYPES] *)

Record type_info := {
  content_types : list string;
  extensions : list string;
  magic_numbers : list (list byte);
  converter_map : list (string * string)
}.

Definition magic_doctype : list byte := list_byte_of_string "<!DOCTYPE html>".
Definition magic_html : list byte := list_byte_of_string "<html".
Definition magic_xml : list byte := list_byte_of_string "<?xml".
Definition magic_pdf : list byte := list_byte_of_string "%PDF".
Definition magic_ole2 : list byte := [xd0; xcf; x11; xe0].
Definition magic_zip : list byte := ["P"%byte; "K"%byte; x03; x04].

(** The dictionary in its insertion order, which is the order in which
    [.items()] visits it. *)
Definition FILE_TYPES : list (string * type_info) :=
  [ ("html",
     {| content_types := ["text/html"; "application/xhtml+xml"];
        extensions := [".html"; ".htm"; ".xhtml"];
        magic_numbers := [magic_doctype; magic_html; magic_xml];
        converter_map := [] |});
    ("text",
     {| content_types := ["text/plain"; "text/txt"];
        extensions := [".txt"];
        magic_numbers := [];
        converter_map := [] |});
    ("pdf",
     {| content_types := ["application/pdf"; "application/x-pdf";
                          "application/acrobat"; "application/vnd.pdf"];
        extensions := [".pdf"];
        magic_numbers := [magic_pdf];
        converter_map := [] |});
    ("word",
     {| content_types :=
          ["application/msword";
           "application/vnd.openxmlformats-officedocument.wordprocessingml.document";
           "application/vnd.ms-word";
           "application/vnd.ms-word.document.macroEnabled.12"];
        extensions := [".doc"; ".docx"];
        magic_numbers := [magic_ole2; magic_zip];
        converter_map := [(".doc", "doc"); (".docx", "docx")] |});
    ("excel",
     {| content_types :=
          ["application/vnd.ms-excel";
           "application/vnd.openxmlformats-officedocument.spreadsheetml.sheet";
           "application/vnd.ms-excel.sheet.macroEnabled.12"];
        extensions := [".xls"; ".xlsx"];
        magic_numbers := [magic_ole2; magic_zip];
        converter_map := [(".xls", "xls"); (".xlsx", "xlsx")] |});
    ("powerpoint",
     {| content_types :=
          ["application/vnd.ms-powerpoint";
           "application/vnd.openxmlformats-officedocument.presentationml.presentation";
           "application/vnd.ms-powerpoint.presentation.macroEnabled.12"];
        extensions := [".ppt"; ".pptx"];
        magic_numbers := [magic_ole2; magic_zip];
        converter_map := [(".ppt", "ppt"); (".pptx", "pptx")] |}) ].

(** ** Type classifier *)

(** [any(ct in content_type for ct in cts)]. *)
Definition any_ct_in (cts : list string) (content_type : string) : bool :=
  existsb (fun ct => contains ct content_type) cts.

(** The first loop of [detect_file_type] (and the loop of
    [check_content_type]): the first kind, in dictionary order, one of
    whose content-type strings occurs in the lower-cased claim. *)
Fixpoint match_content_type (types : list (string * type_info))
    (lowered : string) : option string :=
  match types with
  | [] => None
  | (file_type, type_info) :: rest =>
      if any_ct_in (content_types type_info) lowered then Some file_type
      else match_content_type rest lowered
  end.

(** [content_start.startswith(magic)]: [bytes.startswith(bytes)] answers,
    [str.startswith(bytes)] raises. *)
Definition py_startswith (content_start : pycontent) (magic : list byte)
  : result bool :=
  match content_start with
  | Bytes b => Ok (bytes_startswith b magic)
  | Str _ =>
      Raise (TypeError "startswith first arg must be str or a tuple of str, not bytes")
  end.

(** [any(content_start.startswith(magic) for magic in magics)], lazily. *)
Fixpoint any_startswith (content_start : pycontent) (magics : list (list byte))
  : result bool :=
  match magics with
  | [] => Ok false
  | magic :: rest =>
      do b <- py_startswith content_start magic;
      if b then Ok true else any_startswith content_start rest
  end.

(** The magic-number loop of [detect_file_type]. *)
Fixpoint match_magic (types : list (string * type_info))
    (content_start : pycontent) : result (option string) :=
  match types with
  | [] => Ok None
  | (file_type, type_info) :: rest =>
      do b <- any_startswith content_start (magic_numbers type_info);
      if b then Ok (Some file_type) else match_magic rest content_start
  end.

(** [content[:32]]. *)
Definition slice32 (content : pycontent) : pycontent :=
  match content with
  | Bytes b => Bytes (take 32 b)
  | Str s => Str (String.substring 0 32 s)
  end.

(** The kind the claimed content type selects, if it is supplied and
    matches the registry. *)
Definition claimed_kind (content_type : option string) : option string :=
  if truthy_opt content_type
  then match_content_type FILE_TYPES (lower (default "" content_type))
  else None.

Definition detect_file_type (content : pycontent) (content_type : option string)
  : result (option string) :=
  match claimed_kind content_type with
  | Some file_type => Ok (Some file_type)
  | None =>
      if truthy_opt content_type
         && contains "text/plain" (lower (default "" content_type))
      then Ok (Some "text")
      else match_magic FILE_TYPES (slice32 content)
  end.

Definition detect_file_extension (content : list byte) (content_type : option string)
  : option string :=
  if bytes_startswith content magic_zip then
    match content_type with
    | Some ct =>
        if negb (truthy ct) then None
        else if contains "wordprocessingml" ct then Some ".docx"
        else if contains "spreadsheetml" ct then Some ".xlsx"
        else if contains "presentationml" ct then Some ".pptx"
        else None
    | None => None
    end
  else if bytes_startswith content magic_ole2 then
    match content_type with
    | Some ct =>
        if negb (truthy ct) then None
        else if contains "msword" ct then Some ".doc"
        else if contains "ms-excel" ct then Some ".xls"
        else if contains "ms-powerpoint" ct then Some ".ppt"
        else None
    | None => None
    end
  else None.

Definition check_content_type (content_type : option string) : bool :=
  if negb (truthy_opt content_type) then false
  else
    match match_content_type FILE_TYPES (lower (default "" content_type)) with
    | Some _ => true
    | None => false
    end.

Example detect_pdf_magic :
  detect_file_type (Bytes (magic_pdf ++ [x2d])) None = Ok (Some "pdf").
Proof. reflexivity. Qed.

Example detect_pdf_claimed_html :
  detect_file_type (Bytes magic_pdf) (Some "Text/HTML; charset=utf-8")
  = Ok (Some "html").
Proof. reflexivity. Qed.

(** ** The table [record] *)

Module record.
(** One row; the columns of [CREATE TABLE record].  [reference], [hash]
    and [error] are nullable. *)
Record t := mk {
  id : Z;
  title : string;
  text : string;
  reference : option string;
  group_id : Z;
  created_by : string;
  created_at : string;
  updated_at : string;
  deleted : Z;
  hash : option string;
  update_flg : Z;
  error : option string
}.

(** [SET error = ?] *)
Definition set_error (message : string) (r : t) : t :=
  mk (id r) (title r) (text r) (reference r) (group_id r) (created_by r)
     (created_at r) (updated_at r) (deleted r) (hash r) (update_flg r)
     (Some message).

(** [SET text = ?, hash = ?, update_flg = 1] *)
Definition set_text (markdown_text digest : string) (r : t) : t :=
  mk (id r) (title r) markdown_text (reference r) (group_id r) (created_by r)
     (created_at r) (updated_at r) (deleted r) (Some digest) 1 (error r).
End record.

(** [UPDATE record SET ... WHERE id = ?] *)
Definition update_where_id (f : record.t -> record.t) (id : Z)
    (rows : list record.t) : list record.t :=
  map (fun r => if record.id r =? id then f r else r) rows.

(** [SELECT id FROM record WHERE id = ?] followed by [fetchone()]. *)
Definition select_by_id (id : Z) (rows : list record.t) : option record.t :=
  find (fun r => record.id r =? id) rows.

(** ** Collaborators *)

Module response.
(** What the pipeline reads of a [requests.Response]; [headers] is looked
    up without regard to case. *)
Record t := mk {
  status_code : Z;
  headers : list (string * string);
  content : list byte;
  text : string
}.

Fixpoint headers_get (h : list (string * string)) (key : string)
  : option string :=
  match h with
  | [] => None
  | (k, v) :: rest =>
      if String.eqb (lower k) (lower key) then Some v else headers_get rest key
  end.
End response.

(** A record of the remote store, as [get_records] lists it. *)
Record remote_record := {
  rr_id : Z;
  rr_title : string;
  rr_text : string;
  rr_reference : option string;
  rr_group_id : Z;
  rr_created_by : string;
  rr_created_at : string;
  rr_updated_at : string
}.

(** What [MarkItDown.convert] does on a path: a result carrying
    [text_content], [None], or an exception. *)
Inductive md_outcome :=
| MdResult (text_content : string)
| MdNone
| MdRaise (e : exn).

(** The answers of everything outside the process.  A [datetime] is an
    integer on one time line; only its order is used. *)
Record World := {
  (* datetime.datetime.now().strftime("%Y%m%d%H%M%S") *)
  now_strftime : string;
  now_datetime : Z;
  (* datetime.datetime.strptime(s, format) *)
  strptime : string -> string -> result Z;
  (* str(d) for a datetime d *)
  str_datetime : Z -> string;
  (* hashlib.sha1(s.encode()).hexdigest() *)
  sha1_hexdigest : string -> string;
  (* b.decode('utf-8', errors='ignore') *)
  decode_utf8_ignore : list byte -> string;
  requests_head : string -> result response.t;
  requests_get : string -> result response.t;
  (* BeautifulSoup(markup, 'lxml').select_one(selector): the matched
     element's get_text(), if one matches *)
  soup_select_one : string -> string -> result (option string);
  (* MarkItDown().convert(path) on a file holding these bytes *)
  md_convert : string -> list byte -> md_outcome;
  (* requests.post(update_record, json={id, text}) and raise_for_status() *)
  requests_post : Z -> string -> result unit;
  (* requests.get(get_records), raise_for_status(), .json()['records'] *)
  get_records : result (list remote_record)
}.

(** ** Process state *)

Record file := {
  mtime : Z;          (* datetime.fromtimestamp(os.path.getmtime(path)) *)
  data : list byte
}.

Inductive event :=
| EvReadFile (path : string)
| EvHead (url : string)
| EvGet (url : string)
| EvConvertContent (id : Z)
| EvOpenTemp (path : string)
| EvMdConvert (path : string)
| EvRemove (path : string)
| EvPost (id : Z).

(** [db] is what the connection sees, [committed] what a crash would
    leave; [conn_commit] makes them agree. *)
Record state := mkstate {
  db : list record.t;
  committed : list record.t;
  fs : gmap string file;
  trace : list event
}.

Definition log (e : event) (st : state) : state :=
  mkstate (db st) (committed st) (fs st) (trace st ++ [e]).

Definition with_db (rows : list record.t) (st : state) : state :=
  mkstate rows (committed st) (fs st) (trace st).

Definition with_fs (f : gmap string file) (st : state) : state :=
  mkstate (db st) (committed st) f (trace st).

Definition conn_commit (st : state) : state :=
  mkstate (db st) (db st) (fs st) (trace st).

(** [cursor.execute('UPDATE record SET error = ? WHERE id = ?')] and
    [conn.commit()]. *)
Definition write_error (message : string) (id : Z) (st : state) : state :=
  conn_commit (with_db (update_where_id (record.set_error message) id (db st)) st).

(** [cursor.execute('UPDATE record SET text = ?, hash = ?, update_flg = 1
    WHERE id = ?')] and [conn.commit()]. *)
Definition write_text (W : World) (markdown_text : string) (id : Z)
    (st : state) : state :=
  conn_commit
    (with_db (update_where_id
                (record.set_text markdown_text (sha1_hexdigest W markdown_text))
                id (db st)) st).

(** [os.path.exists] *)
Definition path_exists (path : string) (st : state) : bool :=
  bool_decide (is_Some (fs st !! path)).

(** ** Converter adapter *)

Fixpoint dict_get {V} (d : list (string * V)) (key : string) : option V :=
  match d with
  | [] => None
  | (k, v) :: rest => if String.eqb k key then Some v else dict_get rest key
  end.

Definition save_temp_file (W : World) (content : pycontent) (file_type : string)
    (st : state) : result string * state :=
  match dict_get FILE_TYPES file_type with
  | None => (Raise (KeyError file_type), st)
  | Some type_info =>
      match extensions type_info with
      | [] => (Raise (IndexError "list index out of range"), st)
      | extension :: _ =>
          let temp_file := "temp_" ++ now_strftime W ++ extension in
          (* open(temp_file, 'wb') creates the file, or empties it *)
          let st1 :=
            log (EvOpenTemp temp_file)
              (with_fs (<[temp_file := {| mtime := now_datetime W; data := [] |}]>
                          (fs st)) st) in
          (* f.write(content) *)
          match content with
          | Bytes b =>
              (Ok temp_file,
               with_fs (<[temp_file := {| mtime := now_datetime W; data := b |}]>
                          (fs st1)) st1)
          | Str _ =>
              (Raise (TypeError "a bytes-like object is required, not 'str'"),
               st1)
          end
      end
  end.

(** The [finally] clause of [convert_content]. *)
Definition remove_temp (temp_file : string) (st : state) : state :=
  if path_exists temp_file st
  then log (EvRemove temp_file) (with_fs (delete temp_file (fs st)) st)
  else st.

(** [self.md.convert(temp_file)] *)
Definition call_md_convert (W : World) (temp_file : string) (st : state)
  : md_outcome * state :=
  let st1 := log (EvMdConvert temp_file) st in
  match fs st !! temp_file with
  | Some f => (md_convert W temp_file (data f), st1)
  | None => (MdRaise (OtherError "No such file or directory"), st1)
  end.

(** The inner [try ... except ... finally] of [convert_content].  The
    module imports [MarkItDown] from [markitdown] but never binds the name
    [markitdown]; matching a raised exception against
    [markitdown._markitdown.FileConversionException] therefore raises
    [NameError], which leaves through [finally]. *)
Definition convert_temp (W : World) (temp_file : string) (st : state)
  : result string * state :=
  let '(outcome, st1) := call_md_convert W temp_file st in
  let body :=
    match outcome with
    | MdResult text_content => Ok text_content
    | MdNone => Raise (ValueError "コンテンツの変換に失敗しました")
    | MdRaise e => Raise e
    end in
  let after_except :=
    match body with
    | Ok text_content => Ok text_content
    | Raise _ => Raise (NameError "name 'markitdown' is not defined")
    end in
  (after_except, remove_temp temp_file st1).

(** The body of the outer [try] of [convert_content]. *)
Definition convert_content_try (W : World) (content : pycontent)
    (content_type : option string) (st : state) : result string * state :=
  match detect_file_type content content_type with
  | Raise e => (Raise e, st)
  | Ok None => (Raise (ValueError "未対応のファイル形式です"), st)
  | Ok (Some file_type) =>
      if String.eqb file_type "text" then
        match content with
        | Bytes b => (Ok (decode_utf8_ignore W b), st)
        | Str s => (Ok s, st)
        end
      else
        match save_temp_file W content file_type st with
        | (Raise e, st1) => (Raise e, st1)
        | (Ok temp_file, st1) => convert_temp W temp_file st1
        end
  end.

(** [convert_content]: the text of the conversion result, or [None]. *)
Definition convert_content (W : World) (content : pycontent)
    (content_type : option string) (id : Z) (st : state)
  : option string * state :=
  match convert_content_try W content content_type (log (EvConvertContent id) st) with
  | (Ok text_content, st1) => (Some text_content, st1)
  | (Raise e, st1) => (None, write_error (str_exn e) id st1)
  end.

(** ** Path and reference helpers *)

(** [s.rfind(c)], with first index [i]: the last position of [c], or -1. *)
Fixpoint rfind_from (c : ascii) (s : string) (i : Z) : Z :=
  match s with
  | EmptyString => -1
  | String x s' =>
      let later := rfind_from c s' (i + 1) in
      if 0 <=? later then later
      else if Ascii.eqb x c then i else -1
  end.

Definition rfind (c : ascii) (s : string) : Z := rfind_from c s 0.

Fixpoint has_non_dot (s : string) : bool :=
  match s with
  | EmptyString => false
  | String x s' => negb (Ascii.eqb x ".") || has_non_dot s'
  end.

(** [os.path.splitext(p)[1]] (posixpath): the suffix from the last dot,
    when that dot lies in the last component and some character other than
    a dot precedes it there. *)
Definition splitext_ext (p : string) : string :=
  let sepIndex := rfind "/" p in
  let dotIndex := rfind "." p in
  if sepIndex <? dotIndex then
    if has_non_dot (String.substring (Z.to_nat (sepIndex + 1))
                      (Z.to_nat (dotIndex - sepIndex - 1)) p)
    then String.substring (Z.to_nat dotIndex)
           (String.length p - Z.to_nat dotIndex) p
    else ""
  else "".

(** The dictionary literal that maps a local file's extension to a claimed
    content type. *)
Definition extension_content_type : list (string * string) :=
  [ (".doc", "application/msword");
    (".docx", "application/vnd.openxmlformats-officedocument.wordprocessingml.document");
    (".xls", "application/vnd.ms-excel");
    (".xlsx", "application/vnd.openxmlformats-officedocument.spreadsheetml.sheet");
    (".ppt", "application/vnd.ms-powerpoint");
    (".pptx", "application/vnd.openxmlformats-officedocument.presentationml.presentation");
    (".txt", "text/plain") ].

(** [reference.split(',', 1)] for a reference that holds a comma. *)
Fixpoint split_comma (s : string) : string * string :=
  match s with
  | EmptyString => (EmptyString, EmptyString)
  | String c s' =>
      if Ascii.eqb c "," then (EmptyString, s')
      else let '(url, xpath) := split_comma s' in (String c url, xpath)
  end.

(** [c.isspace()] on the 8-bit range. *)
Definition is_space (c : ascii) : bool :=
  let n := N_of_ascii c in
  (((9 <=? n) && (n <=? 13)) || ((28 <=? n) && (n <=? 32))
   || (n =? 133) || (n =? 160))%N.

Fixpoint lstrip (s : string) : string :=
  match s with
  | EmptyString => EmptyString
  | String c s' => if is_space c then lstrip s' else s
  end.

Fixpoint rstrip (s : string) : string :=
  match s with
  | EmptyString => EmptyString
  | String c s' =>
      match rstrip s' with
      | EmptyString => if is_space c then EmptyString else String c EmptyString
      | rest => String c rest
      end
  end.

(** [s.strip()] *)
Definition strip (s : string) : string := rstrip (lstrip s).

Example splitext_report : splitext_ext "/tmp/report.docx" = ".docx".
Proof. reflexivity. Qed.

Example splitext_hidden : splitext_ext "/tmp/.docx" = "".
Proof. reflexivity. Qed.

Example split_comma_example :
  split_comma "https://example.org/a,div.content, p"
  = ("https://example.org/a", "div.content, p").
Proof. reflexivity. Qed.

Example strip_example : strip "  div.content " = "div.content".
Proof. reflexivity. Qed.

(** ** Record pipeline *)

(** The variables of [process_content] that outlive one loop iteration:
    a name keeps the value an earlier record gave it, and is unbound until
    some record assigns it. *)
Record locals := mklocals {
  markdown_text : option string;
  response : option response.t
}.

Definition no_locals : locals := mklocals None None.

(** How control leaves the [if/elif/else] chain inside the per-record
    [try]: past its end, by [continue], or by an exception. *)
Inductive flow :=
| Fallthrough
| Continue
| Raised (e : exn).

Definition conversion_failed : exn := ValueError "コンテンツの変換に失敗しました".

Definition record_format : string := "%Y-%m-%d %H:%M:%S".
Definition http_format : string := "%a, %d %b %Y %H:%M:%S GMT".

(** [response.headers.get('content-type', '')] *)
Definition content_type_of (r : response.t) : string :=
  default "" (response.headers_get (response.headers r) "content-type").

(** First branch: [os.path.exists(reference)]. *)
Definition process_local_file (W : World) (r : record.t) (reference : string)
    (f : file) (loc : locals) (st : state) : flow * locals * state :=
  let file_time := mtime f in
  match strptime W (record.updated_at r) record_format with
  | Raise e => (Raised e, loc, st)
  | Ok record_time =>
      if truthy (record.text r) && (file_time <=? record_time) then
        let message :=
          "ファイルは最新です（ファイル更新: " ++ str_datetime W file_time
          ++ ", レコード更新: " ++ str_datetime W record_time ++ "）" in
        (Continue, loc, write_error message (record.id r) st)
      else
        let content := data f in
        let st1 := log (EvReadFile reference) st in
        let ext := lower (splitext_ext reference) in
        let content_type :=
          default "application/octet-stream" (dict_get extension_content_type ext) in
        match convert_content W (Bytes content) (Some content_type) (record.id r) st1 with
        | (None, st2) => (Raised conversion_failed, loc, st2)
        | (Some md, st2) =>
            (Fallthrough, mklocals (Some md) (response loc),
             write_text W md (record.id r) st2)
        end
  end.

(** Second branch: [',' in reference and reference.lower().startswith('http')]. *)
Definition process_url_selector (W : World) (r : record.t) (reference : string)
    (loc : locals) (st : state) : flow * locals * state :=
  let '(url, xpath) := split_comma reference in
  let st1 := log (EvGet url) st in
  match requests_get W url with
  | Raise e => (Raised e, loc, st1)
  | Ok resp =>
      let loc1 := mklocals (markdown_text loc) (Some resp) in
      match soup_select_one W (response.text resp) (strip xpath) with
      | Raise e => (Raised e, loc1, st1)
      | Ok None => (Fallthrough, loc1, st1)
      | Ok (Some element_text) =>
          match convert_content W (Str element_text) (Some (content_type_of resp))
                  (record.id r) st1 with
          | (None, st2) => (Raised conversion_failed, loc1, st2)
          | (Some md, st2) => (Fallthrough, mklocals (Some md) (Some resp), st2)
          end
      end
  end.

(** Third branch, [reference.lower().startswith('http')]. *)
Definition process_bare_url (W : World) (r : record.t) (reference : string)
    (loc : locals) (st : state) : flow * locals * state :=
  let st1 := log (EvHead reference) st in
  match requests_head W reference with
  | Raise e => (Raised e, loc, st1)
  | Ok head =>
      let loc1 := mklocals (markdown_text loc) (Some head) in
      let last_modified := response.headers_get (response.headers head) "last-modified" in
      let stale_check : result (option string) :=
        if truthy (record.text r) && truthy_opt last_modified then
          do last_modified_date <- strptime W (default "" last_modified) http_format;
          do record_update_date <- strptime W (record.updated_at r) record_format;
          if last_modified_date <=? record_update_date then
            Ok (Some ("コンテンツは最新です（URL最終更新: "
                      ++ str_datetime W last_modified_date
                      ++ ", レコード更新: "
                      ++ str_datetime W record_update_date ++ "）"))
          else Ok None
        else Ok None in
      match stale_check with
      | Raise e => (Raised e, loc1, st1)
      | Ok (Some message) => (Continue, loc1, write_error message (record.id r) st1)
      | Ok None =>
          let content_type := content_type_of head in
          if negb (check_content_type (Some content_type)) then
            (Continue, loc1,
             write_error ("未対応のコンテンツタイプです: " ++ content_type)
               (record.id r) st1)
          else
            let st2 := log (EvGet reference) st1 in
            match requests_get W reference with
            | Raise e => (Raised e, loc1, st2)
            | Ok resp =>
                let loc2 := mklocals (markdown_text loc) (Some resp) in
                match convert_content W (Bytes (response.content resp))
                        (Some (content_type_of resp)) (record.id r) st2 with
                | (None, st3) => (Raised conversion_failed, loc2, st3)
                | (Some md, st3) =>
                    (Fallthrough, mklocals (Some md) (Some resp), st3)
                end
            end
      end
  end.

Definition unbound_local (name : string) : exn :=
  UnboundLocalError
    ("cannot access local variable '" ++ name
     ++ "' where it is not associated with a value").

(** Last branch: neither an existing path nor an http reference. *)
Definition process_other (W : World) (r : record.t) (reference : string)
    (loc : locals) (st : state) : flow * locals * state :=
  match fs st !! reference with
  | None => (Continue, loc, write_error "ファイルが存在しません" (record.id r) st)
  | Some f =>
      let file_time := mtime f in
      match strptime W (record.updated_at r) record_format with
      | Raise e => (Raised e, loc, st)
      | Ok record_time =>
          if file_time <=? record_time then
            (Continue, loc,
             write_error
               ("ファイルは最新です（ファイル更新: " ++ str_datetime W file_time
                ++ ", レコード更新: " ++ record.updated_at r ++ "）")
               (record.id r) st)
          else
            match response loc with
            | None => (Raised (unbound_local "response"), loc, st)
            | Some resp =>
                match convert_content W (Str reference) (Some (content_type_of resp))
                        (record.id r) st with
                | (None, st1) => (Raised conversion_failed, loc, st1)
                | (Some md, st1) =>
                    (Fallthrough, mklocals (Some md) (response loc), st1)
                end
            end
      end
  end.

(** The [if/elif/else] chain of the per-record [try]. *)
Definition process_reference (W : World) (r : record.t) (reference : string)
    (loc : locals) (st : state) : flow * locals * state :=
  match fs st !! reference with
  | Some f => process_local_file W r reference f loc st
  | None =>
      if contains "," reference && str_startswith (lower reference) "http"
      then process_url_selector W r reference loc st
      else if str_startswith (lower reference) "http"
      then process_bare_url W r reference loc st
      else process_other W r reference loc st
  end.

(** How one loop iteration ended: the reference was empty, a branch wrote a
    message and said [continue], the [except] clause ran, or the final
    [UPDATE] ran. *)
Inductive outcome :=
| NoReference
| Continued
| Failed (e : exn)
| Updated (text : string).

(** The per-record [except Exception as e] clause. *)
Definition handle_exception (e : exn) (id : Z) (st : state) : state :=
  conn_commit (write_error (str_exn e) id st).

(** One iteration of the loop of [process_content]. *)
Definition process_record (W : World) (r : record.t) (loc : locals) (st : state)
  : outcome * locals * state :=
  if negb (truthy_opt (record.reference r)) then (NoReference, loc, st)
  else
    match process_reference W r (default "" (record.reference r)) loc st with
    | (Continue, loc1, st1) => (Continued, loc1, st1)
    | (Raised e, loc1, st1) =>
        (Failed e, loc1, handle_exception e (record.id r) st1)
    | (Fallthrough, loc1, st1) =>
        match markdown_text loc1 with
        | None =>
            let e := unbound_local "markdown_text" in
            (Failed e, loc1, handle_exception e (record.id r) st1)
        | Some md => (Updated md, loc1, write_text W md (record.id r) st1)
        end
    end.

(** The loop over the rows fetched by [SELECT * FROM record]. *)
Fixpoint process_records (W : World) (records : list record.t) (loc : locals)
    (st : state) : list outcome * locals * state :=
  match records with
  | [] => ([], loc, st)
  | r :: rest =>
      let '(o, loc1, st1) := process_record W r loc st in
      let '(os, loc2, st2) := process_records W rest loc1 st1 in
      (o :: os, loc2, st2)
  end.

Definition process_content (W : World) (st : state) : list outcome * state :=
  let '(os, _, st1) := process_records W (db st) no_locals st in (os, st1).

(** ** Sync gateway *)

(** The body of the loop of [sync_records]. *)
Definition upsert (W : World) (rr : remote_record) (rows : list record.t)
  : list record.t :=
  let hash_value :=
    if truthy (rr_text rr) then sha1_hexdigest W (rr_text rr) else "" in
  match select_by_id (rr_id rr) rows with
  | Some _ =>
      update_where_id
        (fun r =>
           record.mk (record.id r) (rr_title rr) (rr_text rr) (rr_reference rr)
             (rr_group_id rr) (rr_created_by rr) (rr_created_at rr)
             (rr_updated_at rr) (record.deleted r) (Some hash_value)
             (record.update_flg r) (record.error r))
        (rr_id rr) rows
  | None =>
      rows ++
      [record.mk (rr_id rr) (rr_title rr) (rr_text rr) (rr_reference rr)
         (rr_group_id rr) (rr_created_by rr) (rr_created_at rr)
         (rr_updated_at rr) 0 (Some hash_value) 0 None]
  end.

Definition sync_records (W : World) (st : state) : state :=
  match get_records W with
  | Raise _ => st
  | Ok records =>
      conn_commit (with_db (foldl (fun rows rr => upsert W rr rows) (db st) records) st)
  end.

(** [SELECT id, text FROM record WHERE update_flg = 1] *)
Definition select_flagged (rows : list record.t) : list (Z * string) :=
  map (fun r => (record.id r, record.text r))
      (filter (fun r => record.update_flg r = 1) rows).

(** The loop of [update_records]: one POST per selected row; a failure is
    logged and the loop goes on. *)
Fixpoint push_all (W : World) (records : list (Z * string)) (st : state)
  : list (Z * bool) * state :=
  match records with
  | [] => ([], st)
  | (id, text) :: rest =>
      let st1 := log (EvPost id) st in
      let acknowledged :=
        match requests_post W id text with Ok _ => true | Raise _ => false end in
      let '(acks, st2) := push_all W rest st1 in
      ((id, acknowledged) :: acks, st2)
  end.

(** [update_records]; the list says, per pushed id, whether the send was
    acknowledged. *)
Definition update_records (W : World) (st : state) : list (Z * bool) * state :=
  push_all W (select_flagged (db st)) st.

(** [init_database] renames any previous [data.db] away and creates an
    empty table. *)
Definition init_database (files : gmap string file) : state :=
  mkstate [] [] files [].

Definition main (W : World) (files : gmap string file) : state :=
  let st1 := sync_records W (init_database files) in
  let '(_, st2) := process_content W st1 in
  let '(_, st3) := update_records W st2 in
  st3.

(** ** A concrete world, for examples *)

Module Sample.
Definition parse (s fmt : string) : result Z :=
  if String.eqb s "2020-01-01 00:00:00" then Ok 20200101000000
  else if String.eqb s "2024-06-01 00:00:00" then Ok 20240601000000
  else if String.eqb s "Tue, 01 Jan 2019 00:00:00 GMT" then Ok 20190101000000
  else Raise (ValueError ("time data '" ++ s ++ "' does not match format '"
                          ++ fmt ++ "'")).

Definition page : response.t :=
  response.mk 200 [("Content-Type", "text/html; charset=utf-8")]
    (list_byte_of_string "<html><body><p>hi</p></body></html>")
    "<html><body><p>hi</p></body></html>".

Definition fetch (url : string) : result response.t :=
  if String.eqb url "https://example.org/a" then Ok page
  else Raise (OtherError "connection refused").

(** Only [p] elements match in [page]. *)
Definition select (markup selector : string) : result (option string) :=
  if String.eqb selector "p" then Ok (Some "hi") else Ok None.

Definition world : World :=
  {| now_strftime := "20240101120000";
     now_datetime := 20240101120000;
     strptime := parse;
     str_datetime := fun _ => "<datetime>";
     sha1_hexdigest := fun s => "sha1(" ++ s ++ ")";
     decode_utf8_ignore := string_of_list_byte;
     requests_head := fetch;
     requests_get := fetch;
     soup_select_one := select;
     md_convert := fun _ _ => MdResult "# converted";
     requests_post := fun _ _ => Ok tt;
     get_records := Ok [] |}.

Definition row (id : Z) (text : string) (reference : string) : record.t :=
  record.mk id "title" text (Some reference) 7 "someone"
    "2019-01-01 00:00:00" "2020-01-01 00:00:00" 0 None 0 None.

Definition docx_bytes : list byte := magic_zip ++ [x14; x00; x06; x00].

Definition files : gmap string file :=
  <["/tmp/report.docx" := {| mtime := 20230101000000; data := docx_bytes |}]>
  (<["/tmp/notes.txt" := {| mtime := 20190101000000;
                            data := list_byte_of_string "alpha" |}]> ∅).

Definition start (rows : list record.t) : state := mkstate rows rows files [].
End Sample.

(** * Properties *)

(** ** Writes on the table *)

Section TableWrites.
Implicit Types (f g : record.t -> record.t) (rows : list record.t).

Lemma update_where_id_compose f g id rows :
  (forall r, record.id (g r) = record.id r) ->
  update_where_id f id (update_where_id g id rows)
  = update_where_id (fun r => f (g r)) id rows.
Proof.
  intros Hg. unfold update_where_id. rewrite map_map.
  apply map_ext. intros r.
  destruct (record.id r =? id) eqn:E.
  - now rewrite Hg, E.
  - now rewrite E.
Qed.

Lemma update_where_id_length f id rows :
  List.length (update_where_id f id rows) = List.length rows.
Proof. unfold update_where_id. apply length_map. Qed.

Lemma set_error_twice m1 m2 id rows :
  update_where_id (record.set_error m2) id
    (update_where_id (record.set_error m1) id rows)
  = update_where_id (record.set_error m2) id rows.
Proof. now rewrite update_where_id_compose. Qed.

Lemma set_text_twice t1 d1 t2 d2 id rows :
  update_where_id (record.set_text t2 d2) id
    (update_where_id (record.set_text t1 d1) id rows)
  = update_where_id (record.set_text t2 d2) id rows.
Proof. now rewrite update_where_id_compose. Qed.

(** After [UPDATE ... WHERE id = ?], a row with that id is the image of a
    row that had it, and a row with another id is an old row. *)
Lemma elem_of_update_where_id f id rows row :
  (forall r, record.id (f r) = record.id r) ->
  row ∈ update_where_id f id rows ->
  (record.id row = id /\ exists r, r ∈ rows /\ record.id r = id /\ row = f r)
  \/ (record.id row <> id /\ row ∈ rows).
Proof.
  intros Hf Hin. unfold update_where_id in Hin.
  apply list_elem_of_fmap in Hin as (r & -> & Hr).
  destruct (record.id r =? id) eqn:E.
  - apply Z.eqb_eq in E. left. rewrite Hf. eauto.
  - apply Z.eqb_neq in E. now right.
Qed.
End TableWrites.

(** ** What the converter adapter does to the table *)

(** [st'] has the table of [st], working copy and committed copy alike. *)
Definition same_table (st st' : state) : Prop :=
  db st' = db st /\ committed st' = committed st.

Lemma same_table_refl st : same_table st st.
Proof. now split. Qed.

Lemma same_table_trans st1 st2 st3 :
  same_table st1 st2 -> same_table st2 st3 -> same_table st1 st3.
Proof. unfold same_table. intros [-> ->] [-> ->]. now split. Qed.

Lemma same_table_log e st : same_table st (log e st).
Proof. now split. Qed.

Lemma same_table_with_fs f st : same_table st (with_fs f st).
Proof. now split. Qed.

Lemma save_temp_file_table W content file_type st r st' :
  save_temp_file W content file_type st = (r, st') -> same_table st st'.
Proof.
  unfold save_temp_file. intros H.
  destruct (dict_get FILE_TYPES file_type) as [info|]; [|injection H as <- <-; apply same_table_refl].
  destruct (extensions info) as [|extension ?]; [injection H as <- <-; apply same_table_refl|].
  destruct content; injection H as <- <-; now split.
Qed.

Lemma remove_temp_table temp_file st : same_table st (remove_temp temp_file st).
Proof. unfold remove_temp. destruct (path_exists temp_file st); now split. Qed.

Lemma convert_temp_table W temp_file st r st' :
  convert_temp W temp_file st = (r, st') -> same_table st st'.
Proof.
  unfold convert_temp, call_md_convert. intros H.
  destruct (fs st !! temp_file); injection H as <- <-;
    (eapply same_table_trans; [apply same_table_log | apply remove_temp_table]).
Qed.

Lemma convert_content_try_table W content content_type st r st' :
  convert_content_try W content content_type st = (r, st') -> same_table st st'.
Proof.
  unfold convert_content_try. intros H.
  destruct (detect_file_type content content_type) as [[file_type|]|e];
    try (injection H as <- <-; apply same_table_refl).
  destruct (String.eqb file_type "text").
  - destruct content; injection H as <- <-; apply same_table_refl.
  - destruct (save_temp_file W content file_type st) as [[temp_file|e] st1] eqn:Es.
    + eapply same_table_trans;
        [eapply save_temp_file_table; eassumption
        |eapply convert_temp_table; eassumption].
    + injection H as <- <-. eapply save_temp_file_table; eassumption.
Qed.

(** A conversion that answers leaves the table alone. *)
Lemma convert_content_some W content content_type id st text_content st' :
  convert_content W content content_type id st = (Some text_content, st') ->
  same_table st st'.
Proof.
  unfold convert_content. intros H.
  destruct (convert_content_try W content content_type (log (EvConvertContent id) st))
    as [[t|e] st1] eqn:Et; [|discriminate].
  injection H as <- <-.
  eapply same_table_trans; [apply same_table_log|].
  eapply convert_content_try_table; eassumption.
Qed.

(** A conversion that fails writes its reason into [error] and commits. *)
Lemma convert_content_none W content content_type id st st' :
  convert_content W content content_type id st = (None, st') ->
  exists message,
    db st' = update_where_id (record.set_error message) id (db st)
    /\ committed st' = db st'.
Proof.
  unfold convert_content. intros H.
  destruct (convert_content_try W content content_type (log (EvConvertContent id) st))
    as [[t|e] st1] eqn:Et; [discriminate|].
  injection H as <-.
  apply convert_content_try_table in Et as [Hdb _].
  exists (str_exn e). cbn. now rewrite Hdb.
Qed.

(** ** What one loop iteration does to the table *)

(** The table of [st'] is that of [st] after one committed
    [UPDATE record SET error = message WHERE id = id]. *)
Definition wrote_error (message : string) (id : Z) (st st' : state) : Prop :=
  db st' = update_where_id (record.set_error message) id (db st)
  /\ committed st' = db st'.

(** The table of [st'] is that of [st] after one committed
    [UPDATE record SET text, hash, update_flg = 1 WHERE id = id]. *)
Definition wrote_text (W : World) (text : string) (id : Z) (st st' : state) : Prop :=
  db st' = update_where_id (record.set_text text (sha1_hexdigest W text)) id (db st)
  /\ committed st' = db st'.

Lemma wrote_error_write_error message id st :
  wrote_error message id st (write_error message id st).
Proof. now split. Qed.

Lemma wrote_text_write_text W text id st :
  wrote_text W text id st (write_text W text id st).
Proof. now split. Qed.

Lemma wrote_error_same_table message id st st1 st2 :
  same_table st st1 -> wrote_error message id st1 st2 -> wrote_error message id st st2.
Proof. intros [Hd _] [H1 H2]. split; [now rewrite H1, Hd | exact H2]. Qed.

Lemma wrote_text_same_table W text id st st1 st2 :
  same_table st st1 -> wrote_text W text id st1 st2 -> wrote_text W text id st st2.
Proof. intros [Hd _] [H1 H2]. split; [now rewrite H1, Hd | exact H2]. Qed.

Lemma wrote_error_twice m1 m2 id st st1 st2 :
  wrote_error m1 id st st1 -> wrote_error m2 id st1 st2 -> wrote_error m2 id st st2.
Proof.
  intros [H1 _] [H2 H3]. split; [|exact H3].
  now rewrite H2, H1, set_error_twice.
Qed.

Lemma wrote_text_twice W text id st st1 st2 :
  wrote_text W text id st st1 -> wrote_text W text id st1 st2 ->
  wrote_text W text id st st2.
Proof.
  intros [H1 _] [H2 H3]. split; [|exact H3].
  now rewrite H2, H1, set_text_twice.
Qed.

(** What leaving the [if/elif/else] chain in a given way implies. *)
Definition flow_effect (W : World) (id : Z) (fl : flow) (loc1 : locals)
    (st st1 : state) : Prop :=
  match fl with
  | Continue => exists message, wrote_error message id st st1
  | Raised _ => same_table st st1 \/ exists message, wrote_error message id st st1
  | Fallthrough =>
      same_table st st1
      \/ exists md, markdown_text loc1 = Some md /\ wrote_text W md id st st1
  end.

Lemma process_local_file_effect W r reference f loc st fl loc1 st1 :
  process_local_file W r reference f loc st = (fl, loc1, st1) ->
  flow_effect W (record.id r) fl loc1 st st1.
Proof.
  unfold process_local_file. intros H.
  destruct (strptime W (record.updated_at r) record_format) as [record_time|e].
  2:{ injection H as <- <- <-. left. apply same_table_refl. }
  destruct (truthy (record.text r) && (mtime f <=? record_time)).
  { injection H as <- <- <-. eexists. apply wrote_error_write_error. }
  match type of H with context [convert_content ?w ?c ?ct ?i ?s] =>
    destruct (convert_content w c ct i s) as [[md|] st2] eqn:Ec end;
    injection H as <- <- <-.
  - right. exists md. split; [reflexivity|].
    apply convert_content_some in Ec.
    eapply wrote_text_same_table; [|apply wrote_text_write_text].
    eapply same_table_trans; [apply same_table_log | exact Ec].
  - right. apply convert_content_none in Ec as (m & Hd & Hc).
    exists m. split; [|exact Hc]. exact Hd.
Qed.

Lemma process_url_selector_effect W r reference loc st fl loc1 st1 :
  process_url_selector W r reference loc st = (fl, loc1, st1) ->
  flow_effect W (record.id r) fl loc1 st st1.
Proof.
  unfold process_url_selector. intros H.
  destruct (split_comma reference) as [url xpath].
  destruct (requests_get W url) as [resp|e].
  2:{ injection H as <- <- <-. left. apply same_table_log. }
  destruct (soup_select_one W (response.text resp) (strip xpath)) as [[element_text|]|e].
  - match type of H with context [convert_content ?w ?c ?ct ?i ?s] =>
      destruct (convert_content w c ct i s) as [[md|] st2] eqn:Ec end;
      injection H as <- <- <-.
    + left. apply convert_content_some in Ec.
      eapply same_table_trans; [apply same_table_log | exact Ec].
    + right. apply convert_content_none in Ec as (m & Hd & Hc).
      exists m. split; [exact Hd | exact Hc].
  - injection H as <- <- <-. left. apply same_table_log.
  - injection H as <- <- <-. left. apply same_table_log.
Qed.

Lemma process_bare_url_effect W r reference loc st fl loc1 st1 :
  process_bare_url W r reference loc st = (fl, loc1, st1) ->
  flow_effect W (record.id r) fl loc1 st st1.
Proof.
  unfold process_bare_url. intros H.
  destruct (requests_head W reference) as [head|e].
  2:{ injection H as <- <- <-. left. apply same_table_log. }
  match type of H with context [match ?c with Ok _ => _ | Raise _ => _ end] =>
    destruct c as [[message|]|e] end.
  - injection H as <- <- <-. exists message.
    eapply wrote_error_same_table; [apply same_table_log | apply wrote_error_write_error].
  - destruct (negb (check_content_type (Some (content_type_of head)))).
    { injection H as <- <- <-. eexists.
      eapply wrote_error_same_table; [apply same_table_log | apply wrote_error_write_error]. }
    destruct (requests_get W reference) as [resp|e].
    2:{ injection H as <- <- <-. left.
        eapply same_table_trans; apply same_table_log. }
    match type of H with context [convert_content ?w ?c ?ct ?i ?s] =>
      destruct (convert_content w c ct i s) as [[md|] st3] eqn:Ec end;
      injection H as <- <- <-.
    + left. apply convert_content_some in Ec.
      eapply same_table_trans; [|exact Ec].
      eapply same_table_trans; apply same_table_log.
    + right. apply convert_content_none in Ec as (m & Hd & Hc).
      exists m. split; [exact Hd | exact Hc].
  - injection H as <- <- <-. left. apply same_table_log.
Qed.

Lemma process_other_effect W r reference loc st fl loc1 st1 :
  process_other W r reference loc st = (fl, loc1, st1) ->
  flow_effect W (record.id r) fl loc1 st st1.
Proof.
  unfold process_other. intros H.
  destruct (fs st !! reference) as [f|].
  2:{ injection H as <- <- <-. eexists. apply wrote_error_write_error. }
  destruct (strptime W (record.updated_at r) record_format) as [record_time|e].
  2:{ injection H as <- <- <-. left. apply same_table_refl. }
  destruct (mtime f <=? record_time).
  { injection H as <- <- <-. eexists. apply wrote_error_write_error. }
  destruct (response loc) as [resp|].
  2:{ injection H as <- <- <-. left. apply same_table_refl. }
  match type of H with context [convert_content ?w ?c ?ct ?i ?s] =>
    destruct (convert_content w c ct i s) as [[md|] st2] eqn:Ec end;
    injection H as <- <- <-.
  - left. eapply convert_content_some; eassumption.
  - right. apply convert_content_none in Ec as (m & Hd & Hc).
    exists m. split; [exact Hd | exact Hc].
Qed.

Lemma process_reference_effect W r reference loc st fl loc1 st1 :
  process_reference W r reference loc st = (fl, loc1, st1) ->
  flow_effect W (record.id r) fl loc1 st st1.
Proof.
  unfold process_reference. intros H.
  destruct (fs st !! reference) as [f|].
  { eapply process_local_file_effect; eassumption. }
  destruct (contains "," reference && str_startswith (lower reference) "http").
  { eapply process_url_selector_effect; eassumption. }
  destruct (str_startswith (lower reference) "http").
  { eapply process_bare_url_effect; eassumption. }
  eapply process_other_effect; eassumption.
Qed.

Lemma wrote_error_handle_exception e id st :
  wrote_error (str_exn e) id st (handle_exception e id st).
Proof. now split. Qed.

(** What each way of ending an iteration did to the table. *)
Definition outcome_effect (W : World) (id : Z) (o : outcome) (st st' : state)
  : Prop :=
  match o with
  | NoReference => st' = st
  | Continued => exists message, wrote_error message id st st'
  | Failed e => wrote_error (str_exn e) id st st'
  | Updated md => wrote_text W md id st st'
  end.

Lemma process_record_effect W r loc st o loc' st' :
  process_record W r loc st = (o, loc', st') ->
  outcome_effect W (record.id r) o st st'.
Proof.
  unfold process_record. intros H.
  destruct (negb (truthy_opt (record.reference r))).
  { injection H as <- <- <-. reflexivity. }
  destruct (process_reference W r (default "" (record.reference r)) loc st)
    as [[fl loc1] st1] eqn:Ep.
  apply process_reference_effect in Ep.
  destruct fl as [| |e]; cbn [flow_effect] in Ep.
  - destruct (markdown_text loc1) as [md|] eqn:Em; injection H as <- <- <-; cbn.
    + destruct Ep as [Hs | (md' & Hmd & Hw)].
      * eapply wrote_text_same_table; [exact Hs | apply wrote_text_write_text].
      * assert (md' = md) as -> by congruence.
        eapply wrote_text_twice; [exact Hw | apply wrote_text_write_text].
    + destruct Ep as [Hs | (md' & Hmd & _)]; [|congruence].
      eapply wrote_error_same_table; [exact Hs | apply wrote_error_handle_exception].
  - injection H as <- <- <-. exact Ep.
  - injection H as <- <- <-. cbn.
    destruct Ep as [Hs | (m & Hw)].
    + eapply wrote_error_same_table; [exact Hs | apply wrote_error_handle_exception].
    + eapply wrote_error_twice; [exact Hw | apply wrote_error_handle_exception].
Qed.

(** The loop visits every fetched row, whatever happens to the others. *)
Lemma process_records_length W records loc st :
  List.length (process_records W records loc st).1.1 = List.length records.
Proof.
  revert loc st. induction records as [|r rest IH]; intros loc st; [reflexivity|].
  cbn [process_records].
  destruct (process_record W r loc st) as [[o loc1] st1].
  specialize (IH loc1 st1).
  destruct (process_records W rest loc1 st1) as [[os loc2] st2].
  cbn in *. now rewrite IH.
Qed.


(** ** Failure isolation *)

(** An exception that leaves the [if/elif/else] chain of an iteration is
    caught by the [except] clause of that iteration: [str(e)] is written
    into the [error] column of the record's rows and of no other row, and
    committed. *)
Lemma raised_failure_is_recorded W r reference loc st e loc1 st1 :
  record.reference r = Some reference ->
  reference <> "" ->
  process_reference W r reference loc st = (Raised e, loc1, st1) ->
  process_record W r loc st
  = (Failed e, loc1, handle_exception e (record.id r) st1)
  /\ db (handle_exception e (record.id r) st1)
     = update_where_id (record.set_error (str_exn e)) (record.id r) (db st)
  /\ committed (handle_exception e (record.id r) st1)
     = db (handle_exception e (record.id r) st1).
Proof.
  intros Href Hne Hflow.
  assert (process_record W r loc st
          = (Failed e, loc1, handle_exception e (record.id r) st1)) as Hrun.
  { unfold process_record. rewrite Href. cbn [truthy_opt].
    destruct reference; [congruence|]. cbn [truthy negb].
    change (default "" (Some (String a reference))) with (String a reference).
    now rewrite Hflow. }
  split; [exact Hrun|].
  exact (process_record_effect _ _ _ _ _ _ _ Hrun).
Qed.

(** C1, the code on a failing input.  Three records: a text file, a page
    on which nothing matches the selector, and a URL whose probe raises.
    The raised failure of the third is caught and its reason stored, and
    every record gets its outcome; but the fetch failure of the second is
    not caught at all: no reason is written into its [error], and the
    iteration goes on to store the first record's text in its row. *)
Theorem C1_unmatched_selector_failure_not_recorded :
  let W := Sample.world in
  let batch :=
    [Sample.row 1 "" "/tmp/notes.txt";
     Sample.row 2 "old" "https://example.org/a,div.content";
     Sample.row 3 "" "https://example.org/down"] in
  let run := process_content W (Sample.start batch) in
  soup_select_one W (response.text Sample.page) (strip "div.content") = Ok None
  /\ run.1 = [Updated "alpha"; Updated "alpha";
              Failed (OtherError "connection refused")]
  /\ map (fun r => (record.id r, record.text r, record.error r)) (db run.2)
     = [(1, "alpha", None); (2, "alpha", None);
        (3, "", Some "connection refused")].
Proof. vm_compute. repeat split. Qed.

(** ** The fingerprint invariant *)

(** Every row flagged for upload stores the fingerprint of its text. *)
Definition hash_consistent (W : World) (rows : list record.t) : Prop :=
  forall row, row ∈ rows -> record.update_flg row = 1 ->
  record.hash row = Some (sha1_hexdigest W (record.text row)).

Definition unflagged (rows : list record.t) : Prop :=
  forall row, row ∈ rows -> record.update_flg row = 0.

Lemma unflagged_consistent W rows : unflagged rows -> hash_consistent W rows.
Proof. intros H row Hin Hflg. rewrite (H row Hin) in Hflg. discriminate. Qed.

Lemma hash_consistent_set_error W message id rows :
  hash_consistent W rows ->
  hash_consistent W (update_where_id (record.set_error message) id rows).
Proof.
  intros H row Hin Hflg.
  apply elem_of_update_where_id in Hin as [(_ & r & Hr & _ & ->)|[_ Hin]];
    [|now apply H|reflexivity].
  cbn in *. now apply H.
Qed.

Lemma hash_consistent_set_text W text id rows :
  hash_consistent W rows ->
  hash_consistent W
    (update_where_id (record.set_text text (sha1_hexdigest W text)) id rows).
Proof.
  intros H row Hin Hflg.
  apply elem_of_update_where_id in Hin as [(_ & r & Hr & _ & ->)|[_ Hin]];
    [reflexivity|now apply H|reflexivity].
Qed.

Lemma process_record_consistent W r loc st o loc' st' :
  process_record W r loc st = (o, loc', st') ->
  hash_consistent W (db st) -> hash_consistent W (db st').
Proof.
  intros Hp H. apply process_record_effect in Hp.
  destruct o as [| |e|md]; cbn in Hp.
  - now subst.
  - destruct Hp as (m & -> & _). now apply hash_consistent_set_error.
  - destruct Hp as [-> _]. now apply hash_consistent_set_error.
  - destruct Hp as [-> _]. now apply hash_consistent_set_text.
Qed.

Lemma process_records_consistent W records loc st :
  hash_consistent W (db st) ->
  hash_consistent W (db (process_records W records loc st).2).
Proof.
  revert loc st. induction records as [|r rest IH]; intros loc st H; [exact H|].
  cbn [process_records].
  destruct (process_record W r loc st) as [[o loc1] st1] eqn:Hr.
  apply process_record_consistent in Hr; [|exact H].
  specialize (IH loc1 st1 Hr).
  now destruct (process_records W rest loc1 st1) as [[os loc2] st2].
Qed.

(** The pipeline keeps the invariant, from any table that has it. *)
Lemma process_content_consistent W st :
  hash_consistent W (db st) -> hash_consistent W (db (process_content W st).2).
Proof.
  intros H. unfold process_content.
  pose proof (process_records_consistent W (db st) no_locals st H) as Hc.
  now destruct (process_records W (db st) no_locals st) as [[os loc] st1].
Qed.

(** The pull never raises a flag: it keeps the flag of a row it rewrites and
    inserts new rows unflagged. *)
Lemma upsert_unflagged W rr rows : unflagged rows -> unflagged (upsert W rr rows).
Proof.
  intros H row Hin. unfold upsert in Hin.
  destruct (select_by_id (rr_id rr) rows).
  - apply elem_of_update_where_id in Hin as [(_ & r & Hr & _ & ->)|[_ Hin]];
      [|now apply H|reflexivity].
    cbn. now apply H.
  - apply elem_of_app in Hin as [Hin|Hin]; [now apply H|].
    apply list_elem_of_singleton in Hin. now subst.
Qed.

Lemma sync_records_unflagged W st :
  unflagged (db st) -> unflagged (db (sync_records W st)).
Proof.
  unfold sync_records. destruct (get_records W) as [records|e]; [|trivial].
  cbn. generalize (db st). induction records as [|rr rest IH]; intros rows H.
  - exact H.
  - cbn. apply IH. now apply upsert_unflagged.
Qed.

(** The push does not write the table. *)
Lemma push_all_table W records st : same_table st (push_all W records st).2.
Proof.
  revert st. induction records as [|[id text] rest IH]; intros st.
  - apply same_table_refl.
  - cbn [push_all]. specialize (IH (log (EvPost id) st)).
    destruct (push_all W rest (log (EvPost id) st)) as [acks st2].
    eapply same_table_trans; [apply same_table_log | exact IH].
Qed.

(** C2. Through a whole run -- fresh table, pull, pipeline, push -- every
    row whose [update_flg] is 1 stores as [hash] the SHA-1 fingerprint of
    its stored [text]: the pull inserts rows unflagged and never raises a
    flag, each pipeline write that sets the flag stores the text and its
    fingerprint in the same update, and the push writes nothing. *)
Theorem C2_hash_matches_text_when_flagged W files :
  let st1 := sync_records W (init_database files) in
  let st2 := (process_content W st1).2 in
  let st3 := (update_records W st2).2 in
  unflagged (db st1)
  /\ hash_consistent W (db st2)
  /\ hash_consistent W (db st3)
  /\ main W files = st3.
Proof.
  intros st1 st2 st3.
  assert (unflagged (db st1)) as H1.
  { apply sync_records_unflagged. intros row Hin. cbn in Hin.
    now apply elem_of_nil in Hin. }
  assert (hash_consistent W (db st2)) as H2.
  { apply process_content_consistent. now apply unflagged_consistent. }
  split; [exact H1|]. split; [exact H2|]. split.
  - unfold st3, update_records.
    destruct (push_all_table W (select_flagged (db st2)) st2) as [-> _].
    exact H2.
  - unfold main, st3, st2, st1.
    destruct (process_content W (sync_records W (init_database files))) as [os s2].
    cbn. now destruct (update_records W s2).
Qed.

(** The invariant is not vacuous: a run that converts a file ends with a
    flagged row. *)
Example flagged_row_after_run :
  let W := Sample.world in
  let st := Sample.start [Sample.row 1 "" "/tmp/notes.txt"] in
  map (fun r => (record.update_flg r, record.text r, record.hash r))
      (db (process_content W st).2)
  = [(1, "alpha", Some "sha1(alpha)")].
Proof. vm_compute. reflexivity. Qed.

(** ** The classifier on PDF content *)

Lemma bytes_startswith_pdf content :
  bytes_startswith content magic_pdf = true ->
  exists rest, content = "%"%byte :: "P"%byte :: "D"%byte :: "F"%byte :: rest.
Proof.
  intros H.
  change magic_pdf with ["%"%byte; "P"%byte; "D"%byte; "F"%byte] in H.
  destruct content as [|b0 [|b1 [|b2 [|b3 rest]]]]; cbn [bytes_startswith] in H;
    repeat match type of H with
           | _ && _ = true => apply andb_prop in H as [? H]
           end;
    try discriminate.
  exists rest.
  repeat match goal with
         | E : Byte.eqb _ _ = true |- _ => apply Byte.byte_dec_bl in E; subst
         end.
  reflexivity.
Qed.

(** Content that begins with [%PDF] is found by the magic-number loop. *)
Lemma match_magic_pdf content :
  bytes_startswith content magic_pdf = true ->
  match_magic FILE_TYPES (slice32 (Bytes content)) = Ok (Some "pdf").
Proof.
  intros H. apply bytes_startswith_pdf in H as [rest ->]. vm_compute. reflexivity.
Qed.

(** A claim that matches no registry entry does not contain [text/plain]. *)
Lemma match_content_type_none_plain lowered :
  match_content_type FILE_TYPES lowered = None ->
  contains "text/plain" lowered = false.
Proof.
  unfold FILE_TYPES. cbn [match_content_type content_types].
  destruct (any_ct_in _ lowered); [discriminate|].
  unfold any_ct_in at 1. cbn [existsb].
  destruct (contains "text/plain" lowered); [discriminate | reflexivity].
Qed.

(** C3, as stated, fails: a claimed type registered for another kind is
    matched first and wins over the [%PDF] magic bytes. *)
Lemma C3_counterexample :
  ~ (forall (content : list byte) (content_type : option string),
       bytes_startswith content magic_pdf = true ->
       detect_file_type (Bytes content) content_type = Ok (Some "pdf")).
Proof.
  intros H.
  specialize (H (magic_pdf ++ list_byte_of_string "-1.7")%list (Some "text/html")
                eq_refl).
  vm_compute in H. discriminate.
Qed.

(** C3, amended. For every content byte-string whose first bytes are
    [%PDF], [detect_file_type] returns [pdf] whenever the claimed content
    type is absent or empty, matches no content-type string of the
    registry, or matches those of [pdf] before any other kind's. *)
Theorem C3_pdf_magic_unless_other_claim (content : list byte)
    (content_type : option string) :
  bytes_startswith content magic_pdf = true ->
  claimed_kind content_type = None \/ claimed_kind content_type = Some "pdf" ->
  detect_file_type (Bytes content) content_type = Ok (Some "pdf").
Proof.
  intros Hmagic [Hnone|Hpdf]; unfold detect_file_type.
  - rewrite Hnone. unfold claimed_kind in Hnone.
    destruct (truthy_opt content_type); cbn [andb].
    + rewrite (match_content_type_none_plain _ Hnone).
      now apply match_magic_pdf.
    + now apply match_magic_pdf.
  - now rewrite Hpdf.
Qed.

Lemma C3_pdf_magic_unless_other_claim_witness :
  detect_file_type (Bytes (magic_pdf ++ list_byte_of_string "-1.7")%list)
    (Some "application/octet-stream") = Ok (Some "pdf")
  /\ detect_file_type (Bytes magic_pdf) None = Ok (Some "pdf")
  /\ detect_file_type (Bytes magic_pdf) (Some "Application/PDF") = Ok (Some "pdf").
Proof.
  split; [|split].
  - apply C3_pdf_magic_unless_other_claim; [reflexivity | left; reflexivity].
  - apply C3_pdf_magic_unless_other_claim; [reflexivity | left; reflexivity].
  - apply C3_pdf_magic_unless_other_claim; [reflexivity | right; reflexivity].
Defined.

(** ** The staleness skip on local files *)

Lemma truthy_nonempty s : s <> "" -> truthy s = true.
Proof. destruct s; [congruence | reflexivity]. Qed.

Lemma set_error_keeps_text message id rows :
  map record.text (update_where_id (record.set_error message) id rows)
  = map record.text rows.
Proof.
  unfold update_where_id. rewrite map_map. apply map_ext. intros r.
  now destruct (record.id r =? id).
Qed.

(** The message written when a local file is not newer than its record. *)
Definition file_up_to_date (W : World) (file_time record_time : Z) : string :=
  "ファイルは最新です（ファイル更新: " ++ str_datetime W file_time
  ++ ", レコード更新: " ++ str_datetime W record_time ++ "）".

(** C4. For a record whose reference names an existing local file, whose
    text is not empty, and whose file was last modified at or before the
    record's [updated_at], the iteration ends by [continue] after writing
    the up-to-date message into [error]: nothing is read, classified or
    converted (the trace gains no event), and no row's text changes. *)
Theorem C4_up_to_date_file_is_skipped W r reference f record_time loc st :
  record.reference r = Some reference ->
  reference <> "" ->
  fs st !! reference = Some f ->
  record.text r <> "" ->
  strptime W (record.updated_at r) record_format = Ok record_time ->
  mtime f <= record_time ->
  let st' := write_error (file_up_to_date W (mtime f) record_time) (record.id r) st in
  process_record W r loc st = (Continued, loc, st')
  /\ (forall row, row ∈ db st' -> record.id row = record.id r ->
      record.error row = Some (file_up_to_date W (mtime f) record_time))
  /\ trace st' = trace st
  /\ fs st' = fs st
  /\ map record.text (db st') = map record.text (db st).
Proof.
  intros Href Hne Hfile Htext Htime Hle st'.
  split; [|split; [|split; [|split]]].
  - unfold process_record. rewrite Href. cbn [truthy_opt].
    rewrite (truthy_nonempty _ Hne). cbn [negb].
    change (default "" (Some reference)) with reference.
    unfold process_reference. rewrite Hfile.
    unfold process_local_file. rewrite Htime.
    rewrite (truthy_nonempty _ Htext).
    apply Z.leb_le in Hle. rewrite Hle. reflexivity.
  - intros row Hin Hid. cbn in Hin.
    apply elem_of_update_where_id in Hin as [(_ & r0 & _ & _ & ->)|[Hn _]];
      [reflexivity | contradiction | reflexivity].
  - reflexivity.
  - reflexivity.
  - cbn. apply set_error_keeps_text.
Qed.

(** [/tmp/notes.txt] was modified in 2019, the record in 2020, and the
    record already has text. *)
Lemma C4_up_to_date_file_is_skipped_witness :
  let W := Sample.world in
  let r := Sample.row 1 "kept" "/tmp/notes.txt" in
  let st := Sample.start [r] in
  (process_record W r no_locals st).1.1 = Continued
  /\ trace (process_record W r no_locals st).2 = []
  /\ map record.text (db (process_record W r no_locals st).2) = ["kept"].
Proof.
  intros W r st.
  destruct (C4_up_to_date_file_is_skipped W r "/tmp/notes.txt"
              {| mtime := 20190101000000; data := list_byte_of_string "alpha" |}
              20200101000000 no_locals st)
    as (Hstep & _ & Htrace & _ & Htext);
    try reflexivity; try discriminate; try lia.
  rewrite Hstep. cbn [fst snd]. split; [reflexivity|]. split.
  - exact Htrace.
  - exact Htext.
Defined.

(** ** A selector that matches nothing *)

(** When no element matches, the branch neither raises nor assigns
    [markdown_text]; the final [UPDATE] then uses whatever an earlier
    record left in that variable. *)
Lemma unmatched_selector_reuses_markdown_text W r reference url xpath resp
    stale loc st :
  record.reference r = Some reference ->
  reference <> "" ->
  fs st !! reference = None ->
  contains "," reference && str_startswith (lower reference) "http" = true ->
  split_comma reference = (url, xpath) ->
  requests_get W url = Ok resp ->
  soup_select_one W (response.text resp) (strip xpath) = Ok None ->
  markdown_text loc = Some stale ->
  process_record W r loc st
  = (Updated stale, mklocals (Some stale) (Some resp),
     write_text W stale (record.id r) (log (EvGet url) st)).
Proof.
  intros Href Hne Hfile Hshape Hsplit Hget Hsel Hstale.
  unfold process_record. rewrite Href. cbn [truthy_opt].
  rewrite (truthy_nonempty _ Hne). cbn [negb].
  change (default "" (Some reference)) with reference.
  unfold process_reference. rewrite Hfile, Hshape.
  unfold process_url_selector. rewrite Hsplit, Hget, Hsel.
  cbn [markdown_text]. now rewrite Hstale.
Qed.

(** C5, the code on a failing input.  The first record converts a text
    file; the second names a page on which nothing matches [div.content].
    The second iteration does not fail: it stores the first record's text,
    with its fingerprint, and flags the row for upload. *)
Theorem C5_unmatched_selector_stores_other_text :
  let W := Sample.world in
  let first := Sample.row 1 "" "/tmp/notes.txt" in
  let second := Sample.row 2 "old" "https://example.org/a,div.content" in
  let run := process_content W (Sample.start [first; second]) in
  soup_select_one W (response.text Sample.page) (strip "div.content") = Ok None
  /\ run.1 = [Updated "alpha"; Updated "alpha"]
  /\ map (fun r => (record.id r, record.text r, record.update_flg r, record.error r))
         (db run.2)
     = [(1, "alpha", 1, None); (2, "alpha", 1, None)].
Proof. vm_compute. repeat split. Qed.

(** Alone in its batch, the same record fails, but only because
    [markdown_text] is still unbound. *)
Example unmatched_selector_alone :
  let W := Sample.world in
  let second := Sample.row 2 "old" "https://example.org/a,div.content" in
  (process_content W (Sample.start [second])).1
  = [Failed (unbound_local "markdown_text")].
Proof. vm_compute. reflexivity. Qed.

(** ** Temporary files *)

(** For the kinds that go through a temporary file, the name ends in the
    first extension the registry lists for the kind. *)
Lemma save_temp_file_bytes W b file_type type_info extension others st :
  dict_get FILE_TYPES file_type = Some type_info ->
  extensions type_info = extension :: others ->
  let temp_file := "temp_" ++ now_strftime W ++ extension in
  exists st',
    save_temp_file W (Bytes b) file_type st = (Ok temp_file, st')
    /\ fs st' = <[temp_file := {| mtime := now_datetime W; data := b |}]> (fs st).
Proof.
  intros Hd He temp_file. unfold save_temp_file. rewrite Hd, He.
  eexists. split; [reflexivity|]. cbn. apply insert_insert_eq.
Qed.

Lemma remove_temp_fs temp_file st :
  fs (remove_temp temp_file st) = delete temp_file (fs st).
Proof.
  unfold remove_temp, path_exists. case_bool_decide as Hex; [reflexivity|].
  symmetry. apply delete_id.
  destruct (fs st !! temp_file) eqn:E; [|reflexivity].
  exfalso. apply Hex. eauto.
Qed.

(** The inner [try ... finally] removes the file on every exit path. *)
Lemma convert_temp_fs W temp_file st :
  fs (convert_temp W temp_file st).2 = delete temp_file (fs st).
Proof.
  unfold convert_temp.
  destruct (call_md_convert W temp_file st) as [outcome st1] eqn:Ec.
  cbn [snd]. rewrite remove_temp_fs.
  unfold call_md_convert in Ec.
  destruct (fs st !! temp_file); injection Ec as _ <-; reflexivity.
Qed.

Lemma convert_content_try_bytes_fs W b content_type st :
  let st' := (convert_content_try W (Bytes b) content_type st).2 in
  fs st' = fs st
  \/ exists temp_file,
       fs st' = delete temp_file (fs st) /\ fs st' !! temp_file = None.
Proof.
  cbn zeta. unfold convert_content_try.
  destruct (detect_file_type (Bytes b) content_type) as [[file_type|]|e];
    [|left; reflexivity|left; reflexivity].
  destruct (String.eqb file_type "text"); [left; reflexivity|].
  destruct (dict_get FILE_TYPES file_type) as [info|] eqn:Hd.
  2:{ left. unfold save_temp_file. now rewrite Hd. }
  destruct (extensions info) as [|extension others] eqn:He.
  { left. unfold save_temp_file. now rewrite Hd, He. }
  destruct (save_temp_file_bytes W b file_type info extension others st Hd He)
    as (st1 & Hs & Hfs).
  rewrite Hs. right. eexists.
  rewrite convert_temp_fs, Hfs, delete_insert_eq.
  split; [reflexivity | apply lookup_delete_eq].
Qed.

(** With [bytes] content the [finally] clause does its work: whatever
    [MarkItDown] does, the file system after [convert_content] is the one
    before it, minus the temporary file if one was used. *)
Lemma convert_content_bytes_cleanup W b content_type id st :
  let st' := (convert_content W (Bytes b) content_type id st).2 in
  fs st' = fs st
  \/ exists temp_file,
       fs st' = delete temp_file (fs st) /\ fs st' !! temp_file = None.
Proof.
  cbn zeta. unfold convert_content.
  pose proof (convert_content_try_bytes_fs W b content_type
                (log (EvConvertContent id) st)) as H.
  cbn zeta in H.
  destruct (convert_content_try W (Bytes b) content_type
              (log (EvConvertContent id) st)) as [[t|e] st1]; exact H.
Qed.

(** C6, the code on a failing input.  The text of a matched page element
    is a [str]; with an HTML content type it is classified by the claim,
    [save_temp_file] opens the temporary file and then fails to write a
    [str] into it, outside the [try ... finally] that would remove it.
    [convert_content] returns [None] and the file is still there. *)
Theorem C6_temp_file_left_behind :
  let W := Sample.world in
  let st := Sample.start [] in
  let run := convert_content W (Str "hi") (Some "text/html; charset=utf-8") 3 st in
  run.1 = None
  /\ fs st !! "temp_20240101120000.html" = None
  /\ fs run.2 !! "temp_20240101120000.html"
     = Some {| mtime := 20240101120000; data := [] |}
  /\ trace run.2 = [EvConvertContent 3; EvOpenTemp "temp_20240101120000.html"].
Proof. vm_compute. repeat split. Qed.

(** ** What ends up in [error] *)

Lemma set_text_keeps_error text digest id rows :
  map record.error (update_where_id (record.set_text text digest) id rows)
  = map record.error rows.
Proof.
  unfold update_where_id. rewrite map_map. apply map_ext. intros r.
  now destruct (record.id r =? id).
Qed.

Lemma wrote_error_rows message id st st' :
  wrote_error message id st st' ->
  forall row, row ∈ db st' -> record.id row = id ->
  record.error row = Some message.
Proof.
  intros [Hdb _] row Hin Hid. rewrite Hdb in Hin.
  apply elem_of_update_where_id in Hin as [(_ & r0 & _ & _ & ->)|[Hn _]];
    [reflexivity | contradiction | reflexivity].
Qed.


(** ** The push *)

Definition acknowledged (W : World) (p : Z * string) : Z * bool :=
  (p.1, match requests_post W p.1 p.2 with Ok _ => true | Raise _ => false end).

Lemma push_all_acks W records st :
  (push_all W records st).1 = map (acknowledged W) records.
Proof.
  revert st. induction records as [|[id text] rest IH]; intros st; [reflexivity|].
  cbn [push_all map]. specialize (IH (log (EvPost id) st)).
  destruct (push_all W rest (log (EvPost id) st)) as [acks st2].
  cbn in *. now rewrite IH.
Qed.

(** C8, as stated, fails: an acknowledged push leaves the flag at 1. *)
Lemma C8_counterexample :
  ~ (forall W st id row,
       (id, true) ∈ (update_records W st).1 ->
       row ∈ db (update_records W st).2 ->
       record.id row = id ->
       record.update_flg row = 0).
Proof.
  intros H.
  pose (row := record.set_text "alpha" "sha1(alpha)" (Sample.row 1 "" "/tmp/notes.txt")).
  specialize (H Sample.world (Sample.start [row]) 1 row).
  assert (record.update_flg row = 0) as Hflg.
  { apply H.
    - vm_compute. apply list_elem_of_here.
    - vm_compute. apply list_elem_of_here.
    - reflexivity. }
  discriminate Hflg.
Qed.

(** C8, amended. [update_records] sends every row whose [update_flg] is 1,
    in table order and whether or not earlier sends failed, and writes
    nothing: after the push, acknowledged or not, the table is the one
    before it, so the flag of every pushed row is still 1. *)
Theorem C8_push_sends_all_and_keeps_flag W st :
  let run := update_records W st in
  run.1 = map (acknowledged W) (select_flagged (db st))
  /\ db run.2 = db st
  /\ committed run.2 = committed st
  /\ (forall row, row ∈ db st -> record.update_flg row = 1 ->
      row ∈ db run.2 /\ (record.id row, record.text row) ∈ select_flagged (db st)).
Proof.
  cbn zeta. unfold update_records.
  destruct (push_all_table W (select_flagged (db st)) st) as [Hdb Hc].
  split; [apply push_all_acks|]. split; [exact Hdb|]. split; [exact Hc|].
  intros row Hin Hflg. split; [now rewrite Hdb|].
  unfold select_flagged.
  apply (list_elem_of_fmap_2 (fun r => (record.id r, record.text r))).
  apply list_elem_of_filter. now split.
Qed.

(** ** The extension of the temporary file *)

(** C9, the code on the scenario's input.  For [/tmp/report.docx], with no
    prior text and content that begins with the ZIP header, the classifier
    answers [word] and a successful conversion sets [update_flg] to 1; but
    the file handed to the converter is named with the first extension the
    registry lists for [word], which is [.doc].  [detect_file_extension]
    would answer [.docx]; nothing calls it. *)
Theorem C9_docx_content_saved_as_doc :
  let W := Sample.world in
  let r := Sample.row 1 "" "/tmp/report.docx" in
  let content_type :=
    "application/vnd.openxmlformats-officedocument.wordprocessingml.document" in
  let run := process_content W (Sample.start [r]) in
  bytes_startswith Sample.docx_bytes magic_zip = true
  /\ dict_get extension_content_type (lower (splitext_ext "/tmp/report.docx"))
     = Some content_type
  /\ detect_file_type (Bytes Sample.docx_bytes) (Some content_type) = Ok (Some "word")
  /\ detect_file_extension Sample.docx_bytes (Some content_type) = Some ".docx"
  /\ trace run.2
     = [EvReadFile "/tmp/report.docx"; EvConvertContent 1;
        EvOpenTemp "temp_20240101120000.doc";
        EvMdConvert "temp_20240101120000.doc";
        EvRemove "temp_20240101120000.doc"]
  /\ run.1 = [Updated "# converted"]
  /\ map record.update_flg (db run.2) = [1].
Proof. vm_compute. repeat split. Qed.

(** Whatever the content, a [word] temporary file is a [.doc] file. *)
Lemma save_temp_file_word W b st :
  (save_temp_file W (Bytes b) "word" st).1 = Ok ("temp_" ++ now_strftime W ++ ".doc").
Proof. reflexivity. Qed.

(** ** The staleness baseline across passes *)

(** [st'] has the events of [st], then [more]. *)
Definition trace_grows (st st' : state) (more : list event) : Prop :=
  trace st' = (trace st ++ more)%list.

Lemma save_temp_file_trace W content file_type st :
  exists more, trace_grows st (save_temp_file W content file_type st).2 more.
Proof.
  unfold save_temp_file, trace_grows.
  destruct (dict_get FILE_TYPES file_type) as [info|];
    [|exists []; cbn; now rewrite app_nil_r].
  destruct (extensions info) as [|extension ?];
    [exists []; cbn; now rewrite app_nil_r|].
  destruct content; eexists; reflexivity.
Qed.

Lemma convert_temp_trace W temp_file st :
  exists more, trace_grows st (convert_temp W temp_file st).2 more.
Proof.
  unfold convert_temp, call_md_convert, remove_temp, trace_grows.
  destruct (fs st !! temp_file); cbn [snd];
    match goal with |- context [if ?c then _ else _] => destruct c end;
    cbn; rewrite <- ?app_assoc; eexists; reflexivity.
Qed.

Lemma convert_content_try_trace W content content_type st :
  exists more, trace_grows st (convert_content_try W content content_type st).2 more.
Proof.
  unfold convert_content_try.
  destruct (detect_file_type content content_type) as [[file_type|]|e];
    try (exists []; unfold trace_grows; cbn; now rewrite app_nil_r).
  destruct (String.eqb file_type "text").
  { destruct content; exists []; unfold trace_grows; cbn; now rewrite app_nil_r. }
  destruct (save_temp_file_trace W content file_type st) as [m1 H1].
  destruct (save_temp_file W content file_type st) as [[temp_file|e] st1];
    cbn [snd] in H1.
  - destruct (convert_temp_trace W temp_file st1) as [m2 H2].
    exists (m1 ++ m2)%list. unfold trace_grows in *.
    now rewrite H2, H1, app_assoc.
  - exists m1. exact H1.
Qed.

(** Every call of [convert_content] shows in the trace. *)
Lemma convert_content_trace W content content_type id st :
  exists more,
    trace_grows st (convert_content W content content_type id st).2
      (EvConvertContent id :: more).
Proof.
  unfold convert_content.
  destruct (convert_content_try_trace W content content_type
              (log (EvConvertContent id) st)) as [more H].
  exists more. unfold trace_grows in *.
  destruct (convert_content_try W content content_type (log (EvConvertContent id) st))
    as [[t|e] st1]; cbn [snd] in *; cbn [trace write_error conn_commit with_db];
    rewrite H; cbn; now rewrite <- app_assoc.
Qed.

(** A local file newer than its record's [updated_at] is read and handed
    to [convert_content], whatever text the record has. *)
Lemma process_record_newer_file W r reference f record_time loc st :
  record.reference r = Some reference ->
  reference <> "" ->
  fs st !! reference = Some f ->
  strptime W (record.updated_at r) record_format = Ok record_time ->
  record_time < mtime f ->
  exists o loc1 st1 more,
    process_record W r loc st = (o, loc1, st1)
    /\ o <> Continued /\ o <> NoReference
    /\ trace_grows st st1
         (EvReadFile reference :: EvConvertContent (record.id r) :: more).
Proof.
  intros Href Hne Hfile Htime Hlt.
  unfold process_record. rewrite Href. cbn [truthy_opt].
  rewrite (truthy_nonempty _ Hne). cbn [negb].
  change (default "" (Some reference)) with reference.
  unfold process_reference. rewrite Hfile.
  unfold process_local_file. rewrite Htime.
  assert ((mtime f <=? record_time) = false) as -> by (apply Z.leb_gt; lia).
  rewrite andb_false_r.
  match goal with |- context [convert_content ?w ?c ?ct ?i ?s] =>
    destruct (convert_content_trace w c ct i s) as [more Hmore];
    destruct (convert_content w c ct i s) as [[md|] st2] end;
    cbn [snd] in Hmore; unfold trace_grows in *; cbn [trace log] in Hmore.
  - cbn [markdown_text]. eexists _, _, _, more.
    split; [reflexivity|]. split; [discriminate|]. split; [discriminate|].
    cbn. rewrite Hmore. now rewrite <- app_assoc.
  - eexists _, _, _, more.
    split; [reflexivity|]. split; [discriminate|]. split; [discriminate|].
    cbn. rewrite Hmore. now rewrite <- app_assoc.
Qed.

(** * Further properties of the code *)

(** ** The classifier *)

Lemma lower_ascii_idem c : lower_ascii (lower_ascii c) = lower_ascii c.
Proof. destruct c as [[] [] [] [] [] [] [] []]; reflexivity. Qed.

Lemma lower_idem s : lower (lower s) = lower s.
Proof.
  induction s as [|c s IH]; [reflexivity|].
  cbn [lower]. now rewrite lower_ascii_idem, IH.
Qed.

Lemma truthy_lower s : truthy (lower s) = truthy s.
Proof. now destruct s. Qed.

Lemma match_content_type_key types lowered k :
  match_content_type types lowered = Some k -> k ∈ map fst types.
Proof.
  induction types as [|[file_type info] rest IH]; [discriminate|].
  cbn [match_content_type map fst].
  destruct (any_ct_in (content_types info) lowered).
  - intros [= <-]. apply list_elem_of_here.
  - intros H. apply list_elem_of_further. now apply IH.
Qed.

(** The claimed type is consulted first and the magic numbers second; the
    [text/plain] test between the two loops never decides anything, because
    a claim that contains [text/plain] is already matched by the first
    loop. *)
Lemma detect_file_type_two_steps content content_type :
  detect_file_type content content_type
  = match claimed_kind content_type with
    | Some file_type => Ok (Some file_type)
    | None => match_magic FILE_TYPES (slice32 content)
    end.
Proof.
  unfold detect_file_type.
  destruct (claimed_kind content_type) as [k|] eqn:Hk; [reflexivity|].
  unfold claimed_kind in Hk.
  destruct (truthy_opt content_type); [|reflexivity].
  now rewrite (match_content_type_none_plain _ Hk).
Qed.

(** X1. A content type that [check_content_type] accepts decides the
    classification by itself: [detect_file_type] then answers one and the
    same registry kind for every content, [bytes] or [str], and never
    raises. *)
Theorem check_content_type_decides_kind content_type :
  check_content_type content_type = true ->
  exists k, k ∈ map fst FILE_TYPES
            /\ forall content, detect_file_type content content_type = Ok (Some k).
Proof.
  unfold check_content_type. intros H.
  destruct (truthy_opt content_type) eqn:Ht; [|discriminate].
  cbn [negb] in H.
  destruct (match_content_type FILE_TYPES (lower (default "" content_type)))
    as [k|] eqn:Hk; [|discriminate].
  exists k. split; [eapply match_content_type_key; eassumption|].
  intros content. rewrite detect_file_type_two_steps.
  unfold claimed_kind. now rewrite Ht, Hk.
Qed.

Lemma check_content_type_decides_kind_witness :
  exists k, k ∈ map fst FILE_TYPES
            /\ forall content,
                 detect_file_type content (Some "Application/PDF; q=1") = Ok (Some k).
Proof. apply check_content_type_decides_kind. reflexivity. Defined.

(** X2. Classification by the claimed type does not depend on the case of
    the claim. *)
Theorem detect_file_type_case_insensitive content content_type :
  detect_file_type content (Some (lower content_type))
  = detect_file_type content (Some content_type).
Proof.
  rewrite !detect_file_type_two_steps. unfold claimed_kind.
  cbn [truthy_opt]. rewrite truthy_lower.
  change (default "" (Some (lower content_type))) with (lower content_type).
  change (default "" (Some content_type)) with content_type.
  now rewrite lower_idem.
Qed.

(** X3. With [str] content, a claim that matches nothing makes the
    classifier raise [TypeError]: the magic numbers are [bytes], and
    [str.startswith] refuses them. *)
Theorem detect_file_type_str_unmatched_raises s content_type :
  claimed_kind content_type = None ->
  detect_file_type (Str s) content_type
  = Raise (TypeError "startswith first arg must be str or a tuple of str, not bytes").
Proof.
  intros H. rewrite detect_file_type_two_steps, H. reflexivity.
Qed.

Lemma detect_file_type_str_unmatched_raises_witness :
  detect_file_type (Str "plain words") (Some "application/json")
  = Raise (TypeError "startswith first arg must be str or a tuple of str, not bytes").
Proof. apply detect_file_type_str_unmatched_raises. reflexivity. Defined.

Lemma bytes_startswith_4 (a b c d : byte) content :
  bytes_startswith content [a; b; c; d] = true ->
  exists rest, content = a :: b :: c :: d :: rest.
Proof.
  intros H.
  destruct content as [|b0 [|b1 [|b2 [|b3 rest]]]]; cbn [bytes_startswith] in H;
    repeat match type of H with
           | _ && _ = true => apply andb_prop in H as [? H]
           end;
    try discriminate.
  exists rest.
  repeat match goal with
         | E : Byte.eqb _ _ = true |- _ => apply Byte.byte_dec_bl in E; subst
         end.
  reflexivity.
Qed.

(** X4. Content that begins with the ZIP or the OLE2 header, with no
    claimed type that matches the registry, is always classified [word]:
    the three office kinds share both headers and [word] comes first in the
    registry, so a spreadsheet or a presentation served without a telling
    content type is taken for a Word document. *)
Theorem detect_file_type_office_magic_is_word content content_type :
  claimed_kind content_type = None ->
  bytes_startswith content magic_zip = true
  \/ bytes_startswith content magic_ole2 = true ->
  detect_file_type (Bytes content) content_type = Ok (Some "word").
Proof.
  intros Hk Hm. rewrite detect_file_type_two_steps, Hk.
  destruct Hm as [Hm|Hm]; apply bytes_startswith_4 in Hm as [rest ->];
    vm_compute; reflexivity.
Qed.

Lemma detect_file_type_office_magic_is_word_witness :
  detect_file_type (Bytes (magic_ole2 ++ [x00; x00])%list)
    (Some "application/octet-stream") = Ok (Some "word").
Proof.
  apply detect_file_type_office_magic_is_word; [reflexivity | right; reflexivity].
Defined.

(** Whatever kind the classifier answers is a key of the registry, and the
    registry lists at least one extension for it. *)
Lemma match_magic_key types content_start k :
  match_magic types content_start = Ok (Some k) -> k ∈ map fst types.
Proof.
  induction types as [|[file_type info] rest IH]; [discriminate|].
  cbn [match_magic map fst]. unfold rbind.
  destruct (any_startswith content_start (magic_numbers info)) as [[]|e];
    [intros [= <-]; apply list_elem_of_here | | discriminate].
  intros H. apply list_elem_of_further. now apply IH.
Qed.

Lemma registry_key_has_extension k :
  k ∈ map fst FILE_TYPES ->
  exists info extension others,
    dict_get FILE_TYPES k = Some info /\ extensions info = extension :: others.
Proof.
  cbn [map fst FILE_TYPES]. intros H.
  repeat (apply elem_of_cons in H; destruct H as [->|H];
          [eexists; eexists; eexists; split; reflexivity|]).
  now apply elem_of_nil in H.
Qed.

Lemma detect_file_type_key content content_type k :
  detect_file_type content content_type = Ok (Some k) -> k ∈ map fst FILE_TYPES.
Proof.
  rewrite detect_file_type_two_steps. intros H.
  destruct (claimed_kind content_type) as [k'|] eqn:Hk.
  - injection H as ->. unfold claimed_kind in Hk.
    destruct (truthy_opt content_type); [|discriminate].
    eapply match_content_type_key; eassumption.
  - eapply match_magic_key; eassumption.
Qed.

(** X5. Every kind [detect_file_type] can answer is a key of [FILE_TYPES]
    with a first extension, so the lookups
    [FILE_TYPES[file_type]['extensions'][0]] of [save_temp_file] never raise
    [KeyError] or [IndexError] on a classified content. *)
Theorem detect_file_type_kind_has_extension content content_type k :
  detect_file_type content content_type = Ok (Some k) ->
  exists info extension others,
    dict_get FILE_TYPES k = Some info /\ extensions info = extension :: others.
Proof.
  intros H. eapply registry_key_has_extension, detect_file_type_key, H.
Qed.

Lemma detect_file_type_kind_has_extension_witness :
  exists info extension others,
    dict_get FILE_TYPES "excel" = Some info /\ extensions info = extension :: others.
Proof.
  apply (detect_file_type_kind_has_extension (Bytes [])
           (Some "application/vnd.ms-excel") "excel").
  reflexivity.
Defined.

(** ** The extension resolver *)

(** X6. The resolver inverts the table that gives a local office file its
    claimed type: for content with the ZIP header and one of [.docx],
    [.xlsx], [.pptx], or content with the OLE2 header and one of [.doc],
    [.xls], [.ppt], resolving the content with the content type the table
    assigns to the extension gives the extension back. *)
Theorem detect_file_extension_inverts_table content extension content_type :
  dict_get extension_content_type extension = Some content_type ->
  (bytes_startswith content magic_zip = true
   /\ extension ∈ [".docx"; ".xlsx"; ".pptx"])
  \/ (bytes_startswith content magic_ole2 = true
      /\ extension ∈ [".doc"; ".xls"; ".ppt"]) ->
  detect_file_extension content (Some content_type) = Some extension.
Proof.
  intros Hd [[Hm He]|[Hm He]].
  - unfold detect_file_extension. rewrite Hm.
    repeat (apply elem_of_cons in He; destruct He as [->|He];
            [vm_compute in Hd; injection Hd as <-; vm_compute; reflexivity|]).
    now apply elem_of_nil in He.
  - unfold detect_file_extension.
    assert (bytes_startswith content magic_zip = false) as ->.
    { apply bytes_startswith_4 in Hm as [rest ->]. reflexivity. }
    rewrite Hm.
    repeat (apply elem_of_cons in He; destruct He as [->|He];
            [vm_compute in Hd; injection Hd as <-; vm_compute; reflexivity|]).
    now apply elem_of_nil in He.
Qed.

Lemma detect_file_extension_inverts_table_witness :
  detect_file_extension (magic_zip ++ [x14; x00])%list
    (Some "application/vnd.openxmlformats-officedocument.spreadsheetml.sheet")
  = Some ".xlsx".
Proof.
  apply detect_file_extension_inverts_table;
    [reflexivity | left; split; [reflexivity|]].
  apply list_elem_of_further, list_elem_of_here.
Defined.

(** X7. The resolver answers only from the header and a non-empty claim:
    an answer is one of the three modern extensions on ZIP content or one
    of the three legacy extensions on OLE2 content; without a claimed type,
    or on content with neither header, it answers nothing. *)
Theorem detect_file_extension_sound content content_type extension :
  detect_file_extension content content_type = Some extension ->
  (exists ct, content_type = Some ct /\ ct <> "")
  /\ ((bytes_startswith content magic_zip = true
       /\ extension ∈ [".docx"; ".xlsx"; ".pptx"])
      \/ (bytes_startswith content magic_ole2 = true
          /\ extension ∈ [".doc"; ".xls"; ".ppt"])).
Proof.
  unfold detect_file_extension. intros H.
  destruct (bytes_startswith content magic_zip) eqn:Hz;
    [|destruct (bytes_startswith content magic_ole2) eqn:Ho; [|discriminate]];
    (destruct content_type as [ct|]; [|discriminate]);
    (destruct ct as [|c ct']; [discriminate|]); cbn [truthy negb] in H;
    (split; [eexists; split; [reflexivity | discriminate]|]);
    [left | right]; (split; [reflexivity|]);
    repeat match type of H with
           | (if ?c then _ else _) = _ => destruct c
           end;
    try discriminate; injection H as <-;
    repeat first [apply list_elem_of_here | apply list_elem_of_further].
Qed.

Lemma detect_file_extension_sound_witness :
  (exists ct, Some "application/msword" = Some ct /\ ct <> "")
  /\ ((bytes_startswith magic_ole2 magic_zip = true
       /\ ".doc" ∈ [".docx"; ".xlsx"; ".pptx"])
      \/ (bytes_startswith magic_ole2 magic_ole2 = true
          /\ ".doc" ∈ [".doc"; ".xls"; ".ppt"])).
Proof.
  apply (detect_file_extension_sound magic_ole2 (Some "application/msword") ".doc").
  reflexivity.
Defined.

(** ** The converter adapter, case by case *)

Lemma convert_content_as_text W content content_type id st :
  claimed_kind content_type = Some "text" ->
  convert_content W content content_type id st
  = (Some (match content with
           | Bytes b => decode_utf8_ignore W b
           | Str s => s
           end),
     log (EvConvertContent id) st).
Proof.
  intros Hk. unfold convert_content, convert_content_try.
  rewrite detect_file_type_two_steps, Hk. cbn [String.eqb].
  now destruct content.
Qed.

(** X8. Content whose claimed type selects the kind [text] is returned as
    it is -- decoded, undecodable bytes dropped, when it is [bytes] --
    without a temporary file, a call of MarkItDown or a write to the
    table: the state only records the call. *)
Theorem convert_content_text_passthrough W content content_type id st :
  claimed_kind content_type = Some "text" ->
  let run := convert_content W content content_type id st in
  run.1 = Some (match content with
                | Bytes b => decode_utf8_ignore W b
                | Str s => s
                end)
  /\ fs run.2 = fs st
  /\ same_table st run.2
  /\ trace run.2 = (trace st ++ [EvConvertContent id])%list.
Proof.
  intros Hk run. unfold run. rewrite convert_content_as_text by exact Hk.
  repeat split.
Qed.

Lemma convert_content_text_passthrough_witness :
  let run := convert_content Sample.world (Bytes (list_byte_of_string "alpha"))
               (Some "Text/Plain; charset=utf-8") 1 (Sample.start []) in
  run.1 = Some "alpha"
  /\ fs run.2 = Sample.files
  /\ same_table (Sample.start []) run.2
  /\ trace run.2 = [EvConvertContent 1].
Proof.
  apply (convert_content_text_passthrough Sample.world
           (Bytes (list_byte_of_string "alpha"))).
  reflexivity.
Defined.

Lemma byte_eqb_neq (a b : byte) : a <> b -> Byte.eqb a b = false.
Proof.
  intros H. destruct (Byte.eqb a b) eqn:E; [|reflexivity].
  apply Byte.byte_dec_bl in E. contradiction.
Qed.

(** Content that starts with none of the first bytes of the registry's
    magic numbers matches none of them. *)
Lemma match_magic_none content :
  content = []
  \/ (exists b0 rest, content = b0 :: rest
      /\ b0 <> "<"%byte /\ b0 <> "%"%byte /\ b0 <> "P"%byte /\ b0 <> xd0) ->
  match_magic FILE_TYPES (slice32 (Bytes content)) = Ok None.
Proof.
  intros [->|(b0 & rest & -> & H1 & H2 & H3 & H4)]; [reflexivity|].
  assert (forall m tail more,
            Byte.eqb m b0 = false ->
            bytes_startswith (b0 :: more) (m :: tail) = false) as Hno.
  { intros m tail more E. cbn [bytes_startswith]. now rewrite E. }
  change (slice32 (Bytes (b0 :: rest))) with (Bytes (b0 :: take 31 rest)).
  unfold FILE_TYPES, magic_doctype, magic_html, magic_xml, magic_pdf,
    magic_ole2, magic_zip.
  cbn [match_magic magic_numbers any_startswith py_startswith rbind
       list_byte_of_string].
  change (list_byte_of_string "<!DOCTYPE html>")
    with ("<"%byte :: list_byte_of_string "!DOCTYPE html>").
  change (list_byte_of_string "<html")
    with ("<"%byte :: list_byte_of_string "html").
  change (list_byte_of_string "<?xml")
    with ("<"%byte :: list_byte_of_string "?xml").
  change (list_byte_of_string "%PDF")
    with ("%"%byte :: list_byte_of_string "PDF").
  rewrite !Hno by (apply byte_eqb_neq; congruence).
  reflexivity.
Qed.

(** X9. Content of an unknown kind -- no claimed type that matches the
    registry, and empty or starting with none of [<], [%], [P], [0xD0] --
    is refused: [convert_content] returns [None], stores the reason and
    touches no file. *)
Theorem convert_content_unknown_kind W content content_type id st :
  claimed_kind content_type = None ->
  content = []
  \/ (exists b0 rest, content = b0 :: rest
      /\ b0 <> "<"%byte /\ b0 <> "%"%byte /\ b0 <> "P"%byte /\ b0 <> xd0) ->
  convert_content W (Bytes content) content_type id st
  = (None, write_error "未対応のファイル形式です" id (log (EvConvertContent id) st)).
Proof.
  intros Hk Hc. unfold convert_content, convert_content_try.
  now rewrite detect_file_type_two_steps, Hk, (match_magic_none _ Hc).
Qed.

Lemma convert_content_unknown_kind_witness :
  convert_content Sample.world (Bytes (list_byte_of_string "{}"))
    (Some "application/json") 1 (Sample.start [])
  = (None, write_error "未対応のファイル形式です" 1
             (log (EvConvertContent 1) (Sample.start []))).
Proof.
  apply convert_content_unknown_kind; [reflexivity|].
  right. exists "{"%byte, ["}"%byte]. repeat split; discriminate.
Defined.

(** X10. For [bytes] content of any kind but [text], [convert_content]
    writes the content to [temp_<now><first extension of the kind>], calls
    MarkItDown on that file once and removes the file, on every path.  It
    returns the converter's text when there is one and leaves the table
    alone; when the converter raises or returns [None] it returns [None],
    and the reason it stores is [name 'markitdown' is not defined] whatever
    the converter reported. *)
Theorem convert_content_bytes_through_temp_file W b content_type id st k :
  detect_file_type (Bytes b) content_type = Ok (Some k) ->
  k <> "text" ->
  exists info extension others st',
    dict_get FILE_TYPES k = Some info
    /\ extensions info = extension :: others
    /\ let temp_file := "temp_" ++ now_strftime W ++ extension in
       let outcome := md_convert W temp_file b in
       convert_content W (Bytes b) content_type id st
       = (match outcome with MdResult t => Some t | _ => None end, st')
       /\ fs st' = delete temp_file (fs st)
       /\ trace st'
          = (trace st ++ [EvConvertContent id; EvOpenTemp temp_file;
                          EvMdConvert temp_file; EvRemove temp_file])%list
       /\ match outcome with
          | MdResult _ => same_table st st'
          | _ => wrote_error "name 'markitdown' is not defined" id st st'
          end.
Proof.
  intros Hd Hk.
  destruct (registry_key_has_extension k (detect_file_type_key _ _ _ Hd))
    as (info & extension & others & Hi & He).
  exists info, extension, others.
  unfold convert_content, convert_content_try. rewrite Hd.
  assert (String.eqb k "text" = false) as -> by now apply String.eqb_neq.
  unfold save_temp_file. rewrite Hi, He.
  unfold convert_temp, call_md_convert. cbn [fs with_fs log].
  rewrite lookup_insert_eq. cbn [data].
  unfold remove_temp, path_exists. cbn [fs with_fs log].
  rewrite lookup_insert_eq.
  rewrite bool_decide_eq_true_2 by eauto.
  set (temp_file := "temp_" ++ now_strftime W ++ extension).
  destruct (md_convert W temp_file b) as [t| |e];
    (eexists; split; [reflexivity|]; split; [reflexivity|];
     cbn zeta; split; [reflexivity|]; split;
     [cbn; now rewrite !delete_insert_eq|]; split;
     [cbn; now rewrite <- !app_assoc|]; now split).
Qed.

Lemma convert_content_bytes_through_temp_file_witness :
  let W := Sample.world in
  exists st',
    convert_content W (Bytes Sample.docx_bytes) None 1 (Sample.start [])
    = (Some "# converted", st')
    /\ fs st' = delete "temp_20240101120000.doc" Sample.files.
Proof.
  intros W.
  destruct (convert_content_bytes_through_temp_file W Sample.docx_bytes None 1
              (Sample.start []) "word")
    as (info & extension & others & st' & Hi & He & Hrun & Hfs & _);
    [reflexivity | discriminate |].
  vm_compute in Hi. injection Hi as <-.
  cbn [extensions] in He. injection He as <- <-.
  exists st'. split; [exact Hrun | exact Hfs].
Defined.

(** ** What the pipeline keeps *)

Section RowRelation.
Variable W : World.
Variable R : record.t -> record.t -> Prop.
Hypothesis R_refl : forall r, R r r.
Hypothesis R_trans : forall a b c, R a b -> R b c -> R a c.
Hypothesis R_error : forall m r, R r (record.set_error m r).
Hypothesis R_text : forall t r, R r (record.set_text t (sha1_hexdigest W t) r).

Lemma update_where_id_rel f id rows :
  (forall r, R r (f r)) -> Forall2 R rows (update_where_id f id rows).
Proof.
  intros Hf. induction rows as [|r rows IH]; [constructor|].
  cbn [update_where_id map]. constructor; [|exact IH].
  destruct (record.id r =? id); [apply Hf | apply R_refl].
Qed.

Lemma Forall2_rel_refl rows : Forall2 R rows rows.
Proof. induction rows; constructor; [apply R_refl | assumption]. Qed.

Lemma Forall2_rel_trans l1 l2 l3 :
  Forall2 R l1 l2 -> Forall2 R l2 l3 -> Forall2 R l1 l3.
Proof.
  intros H12. revert l3. induction H12 as [|a b l1 l2 Hab _ IH]; intros l3 H23.
  - inversion H23. constructor.
  - inversion H23 as [|? c ? l3' Hbc H23']; subst.
    constructor; [eapply R_trans; eassumption | now apply IH].
Qed.

(** A relation between the old and the new version of a row that both
    kinds of pipeline write respect holds, row by row and in the same
    order, between the tables before and after any number of iterations. *)
Lemma process_records_rel records loc st :
  Forall2 R (db st) (db (process_records W records loc st).2).
Proof.
  revert loc st. induction records as [|r rest IH]; intros loc st.
  - apply Forall2_rel_refl.
  - cbn [process_records].
    destruct (process_record W r loc st) as [[o loc1] st1] eqn:Hr.
    specialize (IH loc1 st1).
    destruct (process_records W rest loc1 st1) as [[os loc2] st2].
    cbn [snd] in *. eapply Forall2_rel_trans; [|exact IH].
    apply process_record_effect in Hr.
    destruct o as [| |e|md]; cbn in Hr.
    + subst. apply Forall2_rel_refl.
    + destruct Hr as (m & -> & _). apply update_where_id_rel, R_error.
    + destruct Hr as [-> _]. apply update_where_id_rel, R_error.
    + destruct Hr as [-> _]. apply update_where_id_rel, R_text.
Qed.

Lemma process_content_rel st :
  Forall2 R (db st) (db (process_content W st).2).
Proof.
  unfold process_content.
  pose proof (process_records_rel (db st) no_locals st) as H.
  now destruct (process_records W (db st) no_locals st) as [[os loc] st1].
Qed.
End RowRelation.

(** The columns the pipeline only reads. *)
Definition provenance (r : record.t)
  : Z * string * option string * Z * string * string * string * Z :=
  (record.id r, record.title r, record.reference r, record.group_id r,
   record.created_by r, record.created_at r, record.updated_at r,
   record.deleted r).

(** X11. [process_content] neither adds, removes nor reorders rows, and in
    every row it leaves [id], [title], [reference], [group_id],
    [created_by], [created_at], [updated_at] and [deleted] as they were,
    whatever the collaborators answer. *)
Theorem process_content_keeps_provenance W st :
  map provenance (db (process_content W st).2) = map provenance (db st).
Proof.
  pose proof (process_content_rel W (fun r r' => provenance r' = provenance r)) as H.
  specialize (H ltac:(reflexivity) ltac:(intros; congruence)
                ltac:(reflexivity) ltac:(reflexivity) st).
  induction H as [|r r' l l' Hr _ IH]; [reflexivity|].
  cbn [map]. now rewrite Hr, IH.
Qed.

(** How a row may differ after the pipeline from what it was before:
    [text], [hash] and [update_flg] are all three as they were, or the row
    is flagged and stores the fingerprint of its text. *)
Definition staged_or_untouched (W : World) (r r' : record.t) : Prop :=
  (record.text r' = record.text r /\ record.hash r' = record.hash r
   /\ record.update_flg r' = record.update_flg r)
  \/ (record.update_flg r' = 1
      /\ record.hash r' = Some (sha1_hexdigest W (record.text r'))).

(** X12. Whenever [process_content] changes the [text], the [hash] or the
    [update_flg] of a row, the row ends flagged for upload with the
    fingerprint of its new text: no text is replaced without being staged
    for the push, and no flag is ever cleared. *)
Theorem process_content_stages_every_change W st :
  Forall2 (staged_or_untouched W) (db st) (db (process_content W st).2).
Proof.
  apply process_content_rel.
  - intros r. left. repeat split.
  - intros a b c [(Ht & Hh & Hf)|[Hf Hh]] [(Ht' & Hh' & Hf')|[Hf' Hh']].
    + left. repeat split; congruence.
    + right. now split.
    + right. split; congruence.
    + right. now split.
  - intros m r. left. repeat split.
  - intros t r. right. now split.
Qed.



(** X14. Records without a reference are passed over: on a table whose
    references are all empty or NULL, [process_content] changes nothing --
    no write, no commit, no file or network access. *)
Theorem process_content_without_references W st :
  (forall r, r ∈ db st -> truthy_opt (record.reference r) = false) ->
  process_content W st = (map (fun _ => NoReference) (db st), st).
Proof.
  unfold process_content.
  assert (forall records loc,
            (forall r, r ∈ records -> truthy_opt (record.reference r) = false) ->
            process_records W records loc st
            = (map (fun _ => NoReference) records, loc, st)) as H.
  { induction records as [|r rest IH]; intros loc Hall; [reflexivity|].
    cbn [process_records map]. unfold process_record.
    rewrite (Hall r) by apply list_elem_of_here. cbn [negb].
    rewrite IH; [reflexivity|].
    intros r' Hin. apply Hall. now apply list_elem_of_further. }
  intros Hall. now rewrite (H (db st) no_locals Hall).
Qed.

Lemma process_content_without_references_witness :
  let r := record.mk 1 "title" "kept" (Some "") 7 "someone"
             "2019-01-01 00:00:00" "2020-01-01 00:00:00" 0 None 0 None in
  process_content Sample.world (Sample.start [r])
  = ([NoReference], Sample.start [r]).
Proof.
  intros r. apply (process_content_without_references Sample.world (Sample.start [r])).
  intros r' Hin. apply list_elem_of_singleton in Hin. now subst.
Defined.

(** ** The branches of the pipeline *)

Lemma startswith_http_nonempty reference :
  str_startswith (lower reference) "http" = true -> truthy reference = true.
Proof. now destruct reference. Qed.

(** The first steps of an iteration on a reference that is not a path of
    the file system. *)
Lemma process_record_not_a_file W r reference loc st :
  record.reference r = Some reference ->
  truthy reference = true ->
  fs st !! reference = None ->
  process_record W r loc st
  = match
      (if contains "," reference && str_startswith (lower reference) "http"
       then process_url_selector W r reference loc st
       else if str_startswith (lower reference) "http"
            then process_bare_url W r reference loc st
            else process_other W r reference loc st)
    with
    | (Continue, loc1, st1) => (Continued, loc1, st1)
    | (Raised e, loc1, st1) =>
        (Failed e, loc1, handle_exception e (record.id r) st1)
    | (Fallthrough, loc1, st1) =>
        match markdown_text loc1 with
        | None =>
            (Failed (unbound_local "markdown_text"), loc1,
             handle_exception (unbound_local "markdown_text") (record.id r) st1)
        | Some md => (Updated md, loc1, write_text W md (record.id r) st1)
        end
    end.
Proof.
  intros Href Ht Hfile. unfold process_record. rewrite Href.
  cbn [truthy_opt]. rewrite Ht. cbn [negb].
  change (default "" (Some reference)) with reference.
  unfold process_reference. now rewrite Hfile.
Qed.

(** The message written when a remote resource is not newer than its
    record. *)
Definition url_up_to_date (W : World) (last_modified_date record_update_date : Z)
  : string :=
  "コンテンツは最新です（URL最終更新: " ++ str_datetime W last_modified_date
  ++ ", レコード更新: " ++ str_datetime W record_update_date ++ "）".

(** X15. For a bare URL whose HEAD response carries a [Last-Modified] date
    at or before the record's [updated_at], and a record that already has
    text, the iteration stops after the probe: the up-to-date message is
    written and committed, the body is never requested and nothing is
    converted. *)
Theorem bare_url_not_modified_is_skipped W r reference head last_modified
    last_modified_date record_update_date loc st :
  record.reference r = Some reference ->
  fs st !! reference = None ->
  contains "," reference = false ->
  str_startswith (lower reference) "http" = true ->
  requests_head W reference = Ok head ->
  response.headers_get (response.headers head) "last-modified" = Some last_modified ->
  last_modified <> "" ->
  record.text r <> "" ->
  strptime W last_modified http_format = Ok last_modified_date ->
  strptime W (record.updated_at r) record_format = Ok record_update_date ->
  last_modified_date <= record_update_date ->
  let st' := write_error (url_up_to_date W last_modified_date record_update_date)
               (record.id r) (log (EvHead reference) st) in
  process_record W r loc st
  = (Continued, mklocals (markdown_text loc) (Some head), st')
  /\ trace st' = (trace st ++ [EvHead reference])%list
  /\ fs st' = fs st
  /\ map record.text (db st') = map record.text (db st).
Proof.
  intros Href Hfile Hcomma Hhttp Hhead Hlm Hne Htext Ht1 Ht2 Hle st'.
  split; [|split; [reflexivity|split; [reflexivity|]]].
  - rewrite (process_record_not_a_file W r reference loc st Href
               (startswith_http_nonempty _ Hhttp) Hfile).
    rewrite Hcomma, Hhttp. cbn [andb].
    unfold process_bare_url. rewrite Hhead, Hlm.
    rewrite (truthy_nonempty _ Htext). cbn [truthy_opt andb].
    rewrite (truthy_nonempty _ Hne).
    change (default "" (Some last_modified)) with last_modified.
    rewrite Ht1, Ht2. cbn [rbind].
    apply Z.leb_le in Hle. rewrite Hle. reflexivity.
  - cbn. apply set_error_keeps_text.
Qed.

(** X16. For a bare URL that is not skipped as up to date -- the record
    has no text yet, or the HEAD response has no [Last-Modified] -- and
    whose HEAD content type [check_content_type] rejects, the iteration
    stops after the probe with the unsupported-type message: the body is
    never requested. *)
Theorem bare_url_unsupported_type_is_skipped W r reference head loc st :
  record.reference r = Some reference ->
  fs st !! reference = None ->
  contains "," reference = false ->
  str_startswith (lower reference) "http" = true ->
  requests_head W reference = Ok head ->
  record.text r = ""
  \/ response.headers_get (response.headers head) "last-modified" = None ->
  check_content_type (Some (content_type_of head)) = false ->
  let st' := write_error ("未対応のコンテンツタイプです: " ++ content_type_of head)
               (record.id r) (log (EvHead reference) st) in
  process_record W r loc st
  = (Continued, mklocals (markdown_text loc) (Some head), st')
  /\ trace st' = (trace st ++ [EvHead reference])%list.
Proof.
  intros Href Hfile Hcomma Hhttp Hhead Hfresh Hcheck st'.
  split; [|reflexivity].
  rewrite (process_record_not_a_file W r reference loc st Href
             (startswith_http_nonempty _ Hhttp) Hfile).
  rewrite Hcomma, Hhttp. cbn [andb].
  unfold process_bare_url. rewrite Hhead.
  assert (truthy (record.text r)
          && truthy_opt (response.headers_get (response.headers head) "last-modified")
          = false) as ->.
  { destruct Hfresh as [->| ->]; [reflexivity | apply andb_false_r]. }
  now rewrite Hcheck.
Qed.

(** X17. A reference that is neither an existing path nor an http
    reference ends the iteration with the file-missing message; the code
    that follows the existence test in that branch is never reached. *)
Theorem missing_path_is_reported W r reference loc st :
  record.reference r = Some reference ->
  reference <> "" ->
  fs st !! reference = None ->
  str_startswith (lower reference) "http" = false ->
  process_record W r loc st
  = (Continued, loc, write_error "ファイルが存在しません" (record.id r) st).
Proof.
  intros Href Hne Hfile Hhttp.
  rewrite (process_record_not_a_file W r reference loc st Href
             (truthy_nonempty _ Hne) Hfile).
  rewrite Hhttp, andb_false_r. unfold process_other. now rewrite Hfile.
Qed.


(** A world for the bare-URL examples: a PDF last modified in 2019 and an
    image. *)
Module Probe.
Definition report_head : response.t :=
  response.mk 200
    [("Last-Modified", "Tue, 01 Jan 2019 00:00:00 GMT");
     ("Content-Type", "application/pdf")] [] "".

Definition logo_head : response.t :=
  response.mk 200 [("Content-Type", "image/png")] [] "".

Definition head (url : string) : result response.t :=
  if String.eqb url "https://example.org/report.pdf" then Ok report_head
  else if String.eqb url "https://example.org/logo.png" then Ok logo_head
  else Raise (OtherError "connection refused").

Definition world : World :=
  {| now_strftime := now_strftime Sample.world;
     now_datetime := now_datetime Sample.world;
     strptime := strptime Sample.world;
     str_datetime := str_datetime Sample.world;
     sha1_hexdigest := sha1_hexdigest Sample.world;
     decode_utf8_ignore := decode_utf8_ignore Sample.world;
     requests_head := head;
     requests_get := requests_get Sample.world;
     soup_select_one := soup_select_one Sample.world;
     md_convert := md_convert Sample.world;
     requests_post := requests_post Sample.world;
     get_records := get_records Sample.world |}.
End Probe.

(** The scenario of a report last modified on 1 January 2019 and a record
    updated on 1 January 2020. *)
Lemma bare_url_not_modified_is_skipped_witness :
  let r := Sample.row 5 "kept" "https://example.org/report.pdf" in
  let run := process_record Probe.world r no_locals (Sample.start [r]) in
  run.1.1 = Continued
  /\ trace run.2 = [EvHead "https://example.org/report.pdf"]
  /\ map record.text (db run.2) = ["kept"].
Proof.
  intros r run.
  destruct (bare_url_not_modified_is_skipped Probe.world r
              "https://example.org/report.pdf" Probe.report_head
              "Tue, 01 Jan 2019 00:00:00 GMT" 20190101000000 20200101000000
              no_locals (Sample.start [r]))
    as (Hstep & Htrace & _ & Htext);
    try reflexivity; try discriminate; try lia.
  unfold run. rewrite Hstep. cbn [fst snd].
  split; [reflexivity|]. split; [exact Htrace | exact Htext].
Defined.

Lemma bare_url_unsupported_type_is_skipped_witness :
  let r := Sample.row 6 "" "https://example.org/logo.png" in
  let run := process_record Probe.world r no_locals (Sample.start [r]) in
  run.1.1 = Continued
  /\ trace run.2 = [EvHead "https://example.org/logo.png"]
  /\ map record.error (db run.2) = [Some "未対応のコンテンツタイプです: image/png"].
Proof.
  intros r run.
  destruct (bare_url_unsupported_type_is_skipped Probe.world r
              "https://example.org/logo.png" Probe.logo_head
              no_locals (Sample.start [r]))
    as (Hstep & Htrace);
    try reflexivity; [left; reflexivity|].
  unfold run. rewrite Hstep. cbn [fst snd].
  split; [reflexivity|]. split; [exact Htrace | reflexivity].
Defined.

Lemma missing_path_is_reported_witness :
  let r := Sample.row 7 "" "/tmp/none.pdf" in
  process_record Sample.world r no_locals (Sample.start [r])
  = (Continued, no_locals,
     write_error "ファイルが存在しません" 7 (Sample.start [r])).
Proof.
  intros r.
  apply (missing_path_is_reported Sample.world r "/tmp/none.pdf");
    try reflexivity; discriminate.
Defined.


(** ** The URL,selector reference *)

Lemma prefix_comma c s :
  String.prefix "," (String c s) = Ascii.eqb c ",".
Proof.
  cbn [String.prefix]. destruct (ascii_dec "," c) as [<-|Hne].
  - now destruct s.
  - symmetry. apply Ascii.eqb_neq. congruence.
Qed.

(** X19. On a reference that holds a comma, [split(',', 1)] cuts at the
    first one: the two parts joined by a comma give the reference back and
    the URL part holds no comma, so commas of the selector are kept. *)
Theorem split_comma_first_comma reference :
  contains "," reference = true ->
  reference = (split_comma reference).1 ++ "," ++ (split_comma reference).2
  /\ contains "," (split_comma reference).1 = false.
Proof.
  induction reference as [|c s IH]; [discriminate|].
  cbn [contains split_comma]. rewrite prefix_comma.
  destruct (Ascii.eqb c ",") eqn:E.
  - intros _. apply Ascii.eqb_eq in E as ->. split; reflexivity.
  - cbn [orb]. intros H. destruct (IH H) as [Heq Hno].
    destruct (split_comma s) as [url xpath]. cbn [fst snd] in *.
    split.
    + transitivity (String c (url ++ "," ++ xpath)); [now f_equal | reflexivity].
    + cbn [contains]. rewrite prefix_comma, E. exact Hno.
Qed.

Lemma split_comma_first_comma_witness :
  "https://example.org/a,div.content, p"
  = (split_comma "https://example.org/a,div.content, p").1 ++ ","
    ++ (split_comma "https://example.org/a,div.content, p").2
  /\ contains "," (split_comma "https://example.org/a,div.content, p").1 = false.
Proof. apply split_comma_first_comma. reflexivity. Defined.

(** A [str] is converted only as [text]: for any other claim the
    classifier or the write to the temporary file raises. *)
Lemma convert_content_str_fails W s content_type id st :
  claimed_kind content_type <> Some "text" ->
  (convert_content W (Str s) content_type id st).1 = None.
Proof.
  intros Hk. unfold convert_content, convert_content_try.
  rewrite detect_file_type_two_steps.
  destruct (claimed_kind content_type) as [k|]; [|reflexivity].
  assert (String.eqb k "text" = false) as ->
      by (apply String.eqb_neq; congruence).
  unfold save_temp_file.
  destruct (dict_get FILE_TYPES k) as [info|]; [|reflexivity].
  now destruct (extensions info).
Qed.

(** X20. In the URL,selector branch the text of the matched element is
    stored exactly when the content type of the page selects the kind
    [text].  For every other content type -- an HTML page included -- the
    iteration fails with the conversion-failed message and the record keeps
    its text, because the element text is a [str] and only the [text] kind
    accepts one. *)
Theorem selector_match_stored_only_as_text W r reference url xpath resp
    element_text loc st :
  record.reference r = Some reference ->
  fs st !! reference = None ->
  contains "," reference && str_startswith (lower reference) "http" = true ->
  split_comma reference = (url, xpath) ->
  requests_get W url = Ok resp ->
  soup_select_one W (response.text resp) (strip xpath) = Ok (Some element_text) ->
  (claimed_kind (Some (content_type_of resp)) = Some "text" ->
   process_record W r loc st
   = (Updated element_text, mklocals (Some element_text) (Some resp),
      write_text W element_text (record.id r)
        (log (EvConvertContent (record.id r)) (log (EvGet url) st))))
  /\ (claimed_kind (Some (content_type_of resp)) <> Some "text" ->
      exists st',
        process_record W r loc st
        = (Failed conversion_failed, mklocals (markdown_text loc) (Some resp), st')
        /\ wrote_error (str_exn conversion_failed) (record.id r) st st').
Proof.
  intros Href Hfile Hshape Hsplit Hget Hsel.
  assert (truthy reference = true) as Ht.
  { apply andb_prop in Hshape as [_ H]. now apply startswith_http_nonempty. }
  pose proof (process_record_not_a_file W r reference loc st Href Ht Hfile) as Hrun.
  rewrite Hshape in Hrun. unfold process_url_selector in Hrun.
  rewrite Hsplit, Hget, Hsel in Hrun.
  split; intros Hk.
  - rewrite Hrun, convert_content_as_text by exact Hk. reflexivity.
  - pose proof (convert_content_str_fails W element_text
                  (Some (content_type_of resp)) (record.id r)
                  (log (EvGet url) st) Hk) as Hnone.
    destruct (convert_content W (Str element_text) (Some (content_type_of resp))
                (record.id r) (log (EvGet url) st)) as [[md|] st2];
      [discriminate|].
    eexists. split; [exact Hrun|].
    apply (process_record_effect W r loc st (Failed conversion_failed) _ _ Hrun).
Qed.

Lemma selector_match_stored_only_as_text_witness :
  let r := Sample.row 3 "old" "https://example.org/a, p" in
  exists st',
    process_record Sample.world r no_locals (Sample.start [r])
    = (Failed conversion_failed, mklocals None (Some Sample.page), st')
    /\ wrote_error "コンテンツの変換に失敗しました" 3 (Sample.start [r]) st'.
Proof.
  intros r.
  destruct (selector_match_stored_only_as_text Sample.world r
              "https://example.org/a, p" "https://example.org/a" " p"
              Sample.page "hi" no_locals (Sample.start [r]))
    as [_ Hfail]; try reflexivity.
  apply Hfail. discriminate.
Defined.

(** ** The pull *)

Lemma select_by_id_update_where_id f id rows :
  (forall r, record.id (f r) = record.id r) ->
  select_by_id id (update_where_id f id rows) = f <$> select_by_id id rows.
Proof.
  intros Hf. unfold select_by_id, update_where_id.
  induction rows as [|r rows IH]; [reflexivity|].
  cbn [map find]. destruct (record.id r =? id) eqn:E.
  - now rewrite Hf, E.
  - now rewrite E, IH.
Qed.

Lemma select_by_id_none id rows :
  select_by_id id rows = None ->
  forall r, r ∈ rows -> (record.id r =? id) = false.
Proof.
  unfold select_by_id. induction rows as [|r0 rows IH]; intros H r Hin.
  - now apply elem_of_nil in Hin.
  - cbn [find] in H. destruct (record.id r0 =? id) eqn:E; [discriminate|].
    apply elem_of_cons in Hin as [->|Hin]; [exact E | now apply IH].
Qed.

Lemma select_by_id_app id rows new :
  select_by_id id rows = None ->
  select_by_id id (rows ++ [new])
  = if record.id new =? id then Some new else None.
Proof.
  unfold select_by_id. induction rows as [|r rows IH]; intros H; [reflexivity|].
  cbn [find app] in *. destruct (record.id r =? id); [discriminate|].
  now apply IH.
Qed.

Lemma update_where_id_absent f id rows :
  (forall r, r ∈ rows -> (record.id r =? id) = false) ->
  update_where_id f id rows = rows.
Proof.
  unfold update_where_id. induction rows as [|r rows IH]; intros H; [reflexivity|].
  cbn [map]. rewrite (H r) by apply list_elem_of_here.
  f_equal. apply IH. intros r' Hin. apply H. now apply list_elem_of_further.
Qed.

Lemma update_where_id_ids f id rows :
  (forall r, record.id (f r) = record.id r) ->
  map record.id (update_where_id f id rows) = map record.id rows.
Proof.
  intros Hf. unfold update_where_id. rewrite map_map. apply map_ext.
  intros r. destruct (record.id r =? id); [apply Hf | reflexivity].
Qed.

(** The fingerprint the pull stores: that of the text, or the empty string
    when the text is empty. *)
Definition pulled_hash (W : World) (text : string) : string :=
  if truthy text then sha1_hexdigest W text else "".

(** X21. After the pull has written a remote record, looking its id up
    finds a row with the remote's [title], [text], [reference],
    [group_id], [created_by], [created_at] and [updated_at], and with
    [hash] the fingerprint of the text -- or the empty string for an empty
    text.  If a row with that id was there before, its [deleted],
    [update_flg] and [error] are kept; a new row gets 0, 0 and NULL. *)
Theorem upsert_then_select W rr rows :
  exists row,
    select_by_id (rr_id rr) (upsert W rr rows) = Some row
    /\ (record.id row, record.title row, record.text row, record.reference row,
        record.group_id row, record.created_by row, record.created_at row,
        record.updated_at row)
       = (rr_id rr, rr_title rr, rr_text rr, rr_reference rr, rr_group_id rr,
          rr_created_by rr, rr_created_at rr, rr_updated_at rr)
    /\ record.hash row = Some (pulled_hash W (rr_text rr))
    /\ (record.deleted row, record.update_flg row, record.error row)
       = match select_by_id (rr_id rr) rows with
         | Some old => (record.deleted old, record.update_flg old, record.error old)
         | None => (0, 0, None)
         end.
Proof.
  unfold upsert.
  destruct (select_by_id (rr_id rr) rows) as [old|] eqn:Hsel.
  - rewrite select_by_id_update_where_id by reflexivity. rewrite Hsel.
    eexists. split; [reflexivity|].
    assert (record.id old = rr_id rr) as Hid.
    { unfold select_by_id in Hsel. apply find_some in Hsel as [_ H].
      now apply Z.eqb_eq in H. }
    cbn. rewrite Hid. repeat split.
  - rewrite select_by_id_app by exact Hsel. cbn [record.id].
    rewrite Z.eqb_refl. eexists. split; [reflexivity|]. repeat split.
Qed.

(** X22. Pulling the same remote record twice in a row gives the table
    that pulling it once gives. *)
Theorem upsert_idempotent W rr rows :
  upsert W rr (upsert W rr rows) = upsert W rr rows.
Proof.
  unfold upsert at 2 3.
  destruct (select_by_id (rr_id rr) rows) as [old|] eqn:Hsel.
  - unfold upsert. rewrite select_by_id_update_where_id by reflexivity.
    rewrite Hsel. cbn [fmap option_fmap option_map].
    now rewrite update_where_id_compose.
  - unfold upsert. rewrite select_by_id_app by exact Hsel. cbn [record.id].
    rewrite Z.eqb_refl.
    unfold update_where_id at 1. rewrite map_app.
    fold (update_where_id
            (fun r => record.mk (record.id r) (rr_title rr) (rr_text rr)
                        (rr_reference rr) (rr_group_id rr) (rr_created_by rr)
                        (rr_created_at rr) (rr_updated_at rr) (record.deleted r)
                        (Some (if truthy (rr_text rr)
                               then sha1_hexdigest W (rr_text rr) else ""))
                        (record.update_flg r) (record.error r))
            (rr_id rr) rows).
    rewrite update_where_id_absent by (now apply select_by_id_none).
    cbn [map record.id]. now rewrite Z.eqb_refl.
Qed.

Lemma upsert_ids W rr rows :
  map record.id (upsert W rr rows)
  = if bool_decide (rr_id rr ∈ map record.id rows)
    then map record.id rows
    else (map record.id rows ++ [rr_id rr])%list.
Proof.
  unfold upsert.
  destruct (select_by_id (rr_id rr) rows) as [old|] eqn:Hsel.
  - rewrite update_where_id_ids by reflexivity.
    rewrite bool_decide_eq_true_2; [reflexivity|].
    unfold select_by_id in Hsel. apply find_some in Hsel as [Hin H].
    apply Z.eqb_eq in H. rewrite <- H.
    apply list_elem_of_In, in_map, Hin.
  - rewrite map_app. cbn [map record.id].
    rewrite bool_decide_eq_false_2; [reflexivity|].
    intros Hin. apply list_elem_of_fmap in Hin as (r & Hid & Hr).
    pose proof (select_by_id_none _ _ Hsel r Hr) as Hno.
    apply Z.eqb_neq in Hno. congruence.
Qed.

Lemma upsert_all_ids W records rows :
  let rows' := foldl (fun rows rr => upsert W rr rows) rows records in
  (NoDup (map record.id rows) -> NoDup (map record.id rows'))
  /\ forall i, i ∈ map record.id rows'
               <-> i ∈ map record.id rows \/ i ∈ map rr_id records.
Proof.
  revert rows. induction records as [|rr rest IH]; intros rows; cbn zeta.
  - split; [trivial|]. intros i. cbn. split; [now left|].
    intros [H|H]; [exact H | now apply elem_of_nil in H].
  - cbn [foldl map]. destruct (IH (upsert W rr rows)) as [Hnd Hin].
    cbn zeta in Hnd, Hin. rewrite upsert_ids in Hnd, Hin.
    split.
    + intros H. apply Hnd. case_bool_decide as Hm; [exact H|].
      apply NoDup_app. split; [exact H|]. split.
      * intros x Hx Hx'. apply list_elem_of_singleton in Hx'. now subst.
      * apply NoDup_singleton.
    + intros i. rewrite Hin. case_bool_decide as Hm.
      * rewrite elem_of_cons. split; [tauto|].
        intros [H|[->|H]]; [now left | now left | now right].
      * rewrite elem_of_app, list_elem_of_singleton, elem_of_cons. tauto.
Qed.

(** X23. The pull keeps ids unique and brings in exactly the remote ids:
    from a table without duplicate ids a successful [sync_records] gives a
    table without duplicate ids, whose ids are the old ones and those the
    remote listed -- also when the remote lists an id twice. *)
Theorem sync_records_ids W records st :
  get_records W = Ok records ->
  NoDup (map record.id (db st)) ->
  NoDup (map record.id (db (sync_records W st)))
  /\ forall i, i ∈ map record.id (db (sync_records W st))
               <-> i ∈ map record.id (db st) \/ i ∈ map rr_id records.
Proof.
  intros Hget Hnd. unfold sync_records. rewrite Hget. cbn [db conn_commit with_db].
  destruct (upsert_all_ids W records (db st)) as [H1 H2].
  split; [now apply H1 | exact H2].
Qed.

(** A remote that lists record 1 twice and record 2 once. *)
Module Remote.
Definition listed (id : Z) (text reference : string) : remote_record :=
  {| rr_id := id; rr_title := "title"; rr_text := text;
     rr_reference := Some reference; rr_group_id := 7;
     rr_created_by := "someone"; rr_created_at := "2019-01-01 00:00:00";
     rr_updated_at := "2020-01-01 00:00:00" |}.

Definition records : list remote_record :=
  [listed 1 "" "/tmp/notes.txt"; listed 2 "kept" "/tmp/none.pdf";
   listed 1 "" "/tmp/report.docx"].

Definition world : World :=
  {| now_strftime := now_strftime Sample.world;
     now_datetime := now_datetime Sample.world;
     strptime := strptime Sample.world;
     str_datetime := str_datetime Sample.world;
     sha1_hexdigest := sha1_hexdigest Sample.world;
     decode_utf8_ignore := decode_utf8_ignore Sample.world;
     requests_head := requests_head Sample.world;
     requests_get := requests_get Sample.world;
     soup_select_one := soup_select_one Sample.world;
     md_convert := md_convert Sample.world;
     requests_post := requests_post Sample.world;
     get_records := Ok records |}.
End Remote.

Lemma sync_records_ids_witness :
  NoDup (map record.id (db (sync_records Remote.world (init_database Sample.files))))
  /\ map record.reference (db (sync_records Remote.world (init_database Sample.files)))
     = [Some "/tmp/report.docx"; Some "/tmp/none.pdf"].
Proof.
  split.
  - apply (sync_records_ids Remote.world Remote.records
             (init_database Sample.files) eq_refl).
    apply NoDup_nil_2.
  - reflexivity.
Defined.

(** ** The push and the whole run *)

Lemma push_all_trace W records st :
  trace (push_all W records st).2
  = (trace st ++ map EvPost (map fst records))%list
  /\ fs (push_all W records st).2 = fs st.
Proof.
  revert st. induction records as [|[id text] rest IH]; intros st.
  - cbn. now rewrite app_nil_r.
  - cbn [push_all]. destruct (IH (log (EvPost id) st)) as [Ht Hf].
    destruct (push_all W rest (log (EvPost id) st)) as [acks st2].
    cbn [snd] in *. rewrite Ht, Hf. cbn. now rewrite <- app_assoc.
Qed.

(** X24. [update_records] issues exactly one POST per row whose
    [update_flg] is 1, in table order, and nothing else: no other request,
    no file access; on a table without flagged rows it does nothing. *)
Theorem update_records_posts_flagged_rows W st :
  trace (update_records W st).2
  = (trace st
     ++ map EvPost
          (map record.id (filter (fun r => record.update_flg r = 1) (db st))))%list
  /\ fs (update_records W st).2 = fs st.
Proof.
  unfold update_records, select_flagged.
  destruct (push_all_trace W
              (map (fun r => (record.id r, record.text r))
                 (filter (fun r => record.update_flg r = 1) (db st))) st)
    as [Ht Hf].
  split; [|exact Hf]. rewrite Ht. f_equal. f_equal. now rewrite map_map.
Qed.

Lemma Forall2_same_ids (l l' : list record.t) :
  Forall2 (fun r r' => record.id r' = record.id r) l l' ->
  map record.id l' = map record.id l.
Proof.
  induction 1 as [|r r' l l' Hr _ IH]; [reflexivity|].
  cbn [map]. now rewrite Hr, IH.
Qed.

(** X25. After a whole run whose pull succeeded, the table has one row
    per id the remote listed and no other row. *)
Theorem main_table_has_the_remote_ids W files records :
  get_records W = Ok records ->
  NoDup (map record.id (db (main W files)))
  /\ forall i, i ∈ map record.id (db (main W files)) <-> i ∈ map rr_id records.
Proof.
  intros Hget.
  assert (map record.id (db (main W files))
          = map record.id (db (sync_records W (init_database files)))) as ->.
  { unfold main.
    pose proof (process_content_rel W (fun r r' => record.id r' = record.id r)
                  ltac:(reflexivity) ltac:(intros; congruence)
                  ltac:(reflexivity) ltac:(reflexivity)
                  (sync_records W (init_database files))) as Hp.
    destruct (process_content W (sync_records W (init_database files)))
      as [os st2].
    cbn [snd] in Hp.
    destruct (push_all_table W (select_flagged (db st2)) st2) as [Hdb _].
    unfold update_records.
    destruct (push_all W (select_flagged (db st2)) st2) as [acks st3].
    cbn [snd] in Hdb. rewrite Hdb. now apply Forall2_same_ids. }
  unfold sync_records. rewrite Hget. cbn [db conn_commit with_db init_database].
  destruct (upsert_all_ids W records []) as [Hnd Hin]. cbn zeta in Hnd, Hin.
  split; [apply Hnd, NoDup_nil_2|]. intros i. rewrite Hin. cbn.
  split; [intros [H|H]; [now apply elem_of_nil in H | exact H] | now right].
Qed.

Lemma main_table_has_the_remote_ids_witness :
  NoDup (map record.id (db (main Remote.world Sample.files)))
  /\ forall i, i ∈ map record.id (db (main Remote.world Sample.files))
               <-> i ∈ [1; 2; 1].
Proof. apply (main_table_has_the_remote_ids Remote.world Sample.files Remote.records eq_refl). Defined.

(** X26. A transport failure is not retried: when the HEAD probe of a bare
    URL raises, the iteration fails with that exception, its message is
    stored and committed, and neither a second probe nor a GET is issued. *)
Theorem bare_url_probe_failure W r reference e loc st :
  record.reference r = Some reference ->
  fs st !! reference = None ->
  contains "," reference = false ->
  str_startswith (lower reference) "http" = true ->
  requests_head W reference = Raise e ->
  let st' := handle_exception e (record.id r) (log (EvHead reference) st) in
  process_record W r loc st = (Failed e, loc, st')
  /\ trace st' = (trace st ++ [EvHead reference])%list
  /\ wrote_error (str_exn e) (record.id r) st st'.
Proof.
  intros Href Hfile Hcomma Hhttp Hhead st'.
  split; [|split; [reflexivity | now split]].
  rewrite (process_record_not_a_file W r reference loc st Href
             (startswith_http_nonempty _ Hhttp) Hfile).
  rewrite Hcomma, Hhttp. cbn [andb].
  unfold process_bare_url. now rewrite Hhead.
Qed.

Lemma bare_url_probe_failure_witness :
  let r := Sample.row 8 "" "https://example.org/down" in
  let run := process_record Sample.world r no_locals (Sample.start [r]) in
  run.1.1 = Failed (OtherError "connection refused")
  /\ trace run.2 = [EvHead "https://example.org/down"]
  /\ map record.error (db run.2) = [Some "connection refused"].
Proof.
  intros r run.
  destruct (bare_url_probe_failure Sample.world r "https://example.org/down"
              (OtherError "connection refused") no_locals (Sample.start [r]))
    as (Hstep & Htrace & _); try reflexivity.
  unfold run. rewrite Hstep. cbn [fst snd].
  split; [reflexivity|]. split; [exact Htrace | reflexivity].
Defined.

(** X27. When the selector of a URL,selector reference matches no element,
    the iteration does not stop there: it runs the final update with
    whatever [markdown_text] holds.  If an earlier record of the batch was
    converted, that record's text is stored in this row and the row is
    flagged; if none was, the iteration fails on the unbound variable. *)
Theorem unmatched_selector_outcome W r reference url xpath resp loc st :
  record.reference r = Some reference ->
  fs st !! reference = None ->
  contains "," reference && str_startswith (lower reference) "http" = true ->
  split_comma reference = (url, xpath) ->
  requests_get W url = Ok resp ->
  soup_select_one W (response.text resp) (strip xpath) = Ok None ->
  process_record W r loc st
  = match markdown_text loc with
    | Some stale =>
        (Updated stale, mklocals (Some stale) (Some resp),
         write_text W stale (record.id r) (log (EvGet url) st))
    | None =>
        (Failed (unbound_local "markdown_text"), mklocals None (Some resp),
         handle_exception (unbound_local "markdown_text") (record.id r)
           (log (EvGet url) st))
    end.
Proof.
  intros Href Hfile Hshape Hsplit Hget Hsel.
  assert (truthy reference = true) as Ht.
  { apply andb_prop in Hshape as [_ H]. now apply startswith_http_nonempty. }
  rewrite (process_record_not_a_file W r reference loc st Href Ht Hfile).
  rewrite Hshape. unfold process_url_selector.
  rewrite Hsplit, Hget, Hsel. cbn [markdown_text].
  now destruct (markdown_text loc).
Qed.

Lemma unmatched_selector_outcome_witness :
  let r := Sample.row 2 "old" "https://example.org/a,div.content" in
  process_record Sample.world r (mklocals (Some "alpha") None) (Sample.start [r])
  = (Updated "alpha", mklocals (Some "alpha") (Some Sample.page),
     write_text Sample.world "alpha" 2
       (log (EvGet "https://example.org/a") (Sample.start [r]))).
Proof.
  intros r.
  apply (unmatched_selector_outcome Sample.world r
           "https://example.org/a,div.content" "https://example.org/a"
           "div.content" Sample.page (mklocals (Some "alpha") None)
           (Sample.start [r]));
    reflexivity.
Defined.

(** X28. On [bytes] content [convert_content] leaves no file behind and
    changes none: whatever the classifier and MarkItDown do, every path
    holds afterwards what it held before, or nothing. *)
Theorem convert_content_bytes_adds_no_file W b content_type id st path :
  let st' := (convert_content W (Bytes b) content_type id st).2 in
  fs st' !! path = fs st !! path \/ fs st' !! path = None.
Proof.
  cbn zeta.
  destruct (convert_content_bytes_cleanup W b content_type id st)
    as [->|(temp_file & -> & _)]; [now left|].
  destruct (decide (temp_file = path)) as [->|Hne].
  - right. apply lookup_delete_eq.
  - left. now apply lookup_delete_ne.
Qed.

(** * The table after a run *)

(** ** The message a skip leaves *)




(** ** Rows and outcomes *)









(** * The staleness baseline from run to run *)

(** ** What an iteration leaves of the file system and the trace *)

















(** ** The table a pull leaves *)





(** ** A local file that is due *)







(** The run of [Remote.world]: record 2 is listed once, without text, with
    an existing Word file newer than its [updated_at]. *)
Module Office.
Definition records : list remote_record :=
  [Remote.listed 1 "kept" "/tmp/notes.txt"; Remote.listed 2 "" "/tmp/report.docx"].

Definition world : World :=
  {| now_strftime := now_strftime Sample.world;
     now_datetime := now_datetime Sample.world;
     strptime := strptime Sample.world;
     str_datetime := str_datetime Sample.world;
     sha1_hexdigest := sha1_hexdigest Sample.world;
     decode_utf8_ignore := decode_utf8_ignore Sample.world;
     requests_head := requests_head Sample.world;
     requests_get := requests_get Sample.world;
     soup_select_one := soup_select_one Sample.world;
     md_convert := md_convert Sample.world;
     requests_post := requests_post Sample.world;
     get_records := Ok records |}.
End Office.


(** ** Two runs *)

(** A first run on a record without text whose file is older than its
    [updated_at], and a second run after the remote store has taken in what
    the first run pushed. *)
Module TwoRuns.
Definition with_records (records : list remote_record) : World :=
  {| now_strftime := now_strftime Sample.world;
     now_datetime := now_datetime Sample.world;
     strptime := strptime Sample.world;
     str_datetime := str_datetime Sample.world;
     sha1_hexdigest := sha1_hexdigest Sample.world;
     decode_utf8_ignore := decode_utf8_ignore Sample.world;
     requests_head := requests_head Sample.world;
     requests_get := requests_get Sample.world;
     soup_select_one := soup_select_one Sample.world;
     md_convert := md_convert Sample.world;
     requests_post := requests_post Sample.world;
     get_records := Ok records |}.

Definition listed_first : list remote_record :=
  [Remote.listed 1 "" "/tmp/notes.txt"].

Definition first : state := main (with_records listed_first) Sample.files.

(** The remote record once the store has applied the update a run sent
    for it: the text of the pushed row, everything else as listed. *)
Definition after_push (rows : list record.t) (rr : remote_record)
  : remote_record :=
  match select_by_id (rr_id rr) rows with
  | Some row =>
      if record.update_flg row =? 1 then
        {| rr_id := rr_id rr; rr_title := rr_title rr;
           rr_text := record.text row; rr_reference := rr_reference rr;
           rr_group_id := rr_group_id rr; rr_created_by := rr_created_by rr;
           rr_created_at := rr_created_at rr;
           rr_updated_at := rr_updated_at rr |}
      else rr
  | None => rr
  end.

Definition listed_second : list remote_record :=
  map (after_push (db first)) listed_first.

Definition second : state := main (with_records listed_second) (fs first).
End TwoRuns.

